(** * EtchoBot: the Wordle result parser, scorer, aggregator and ranking

    A shallow embedding of [src/EtchoBot.py].  Python [str] values are
    lists of Unicode code points; Python [int] values are [Z]; the
    leaderboard [dict] is an association list in insertion order, because
    [sorted] is stable and the ranking therefore depends on the order of
    the keys; a Python [float] is the rational it stands for, and the
    float operations round to the nearest double (ties to even).  The
    character tables are those of Unicode 14.0 (CPython 3.11). *)

From Stdlib Require Import List Ascii String ZArith QArith Lia Bool Arith.
From Stdlib Require Import Permutation Sorted Lqa Qround Qabs.
Import ListNotations.

Local Open Scope Z_scope.

(** ** Text primitives *)

Module Text.

(** A code point, and a [str]. *)
Definition char := N.

Definition str := list N.

(** The code point of an ASCII character, and an ASCII literal as a [str]. *)
Definition chr (a : ascii) : N := N_of_ascii a.

Definition lit (s : string) : str := map chr (list_ascii_of_string s).

(** [c == a] for a character [a] written in the source. *)
Definition eqc (c : N) (a : ascii) : bool := (c =? chr a)%N.

Fixpoint str_eqb (a b : str) : bool :=
  match a, b with
  | [], [] => true
  | x :: a', y :: b' => (x =? y)%N && str_eqb a' b'
  | _, _ => false
  end.

(** The decimal digits (category Nd) come in runs of ten, 0 to 9: the code
    points of the zeros. *)
Definition digit_zeros : list N :=
  [48; 1632; 1776; 1984; 2406; 2534; 2662; 2790; 2918; 3046; 3174; 3302;
   3430; 3558; 3664; 3792; 3872; 4160; 4240; 6112; 6160; 6470; 6608; 6784;
   6800; 6992; 7088; 7232; 7248; 42528; 43216; 43264; 43472; 43504; 43600;
   44016; 65296; 66720; 68912; 69734; 69872; 69942; 70096; 70384; 70736;
   70864; 71248; 71360; 71472; 71904; 72016; 72784; 73040; 73120; 92768;
   92864; 93008; 120782; 120792; 120802; 120812; 120822; 123200; 123632;
   125264; 130032]%N.

Definition in_run (c z : N) : bool := ((z <=? c) && (c <? z + 10))%N.

(** The value of a decimal digit: what [int] reads for the character, and
    [None] for a character that [\d] and [str.isdecimal] refuse. *)
Definition decimal (c : N) : option Z :=
  match find (in_run c) digit_zeros with
  | Some z => Some (Z.of_N (c - z))
  | None => None
  end.

(** [\d] *)
Definition is_digit (c : N) : bool :=
  match decimal c with Some _ => true | None => false end.

Definition digit_val (c : N) : Z :=
  match decimal c with Some v => v | None => 0 end.

(** [\s], [str.isspace] and the characters removed by [str.strip()]. *)
Definition space_ranges : list (N * N) :=
  [(9, 13); (28, 32); (133, 133); (160, 160); (5760, 5760); (8192, 8202);
   (8232, 8233); (8239, 8239); (8287, 8287); (12288, 12288)]%N.

Definition in_range (c : N) (r : N * N) : bool :=
  ((fst r <=? c) && (c <=? snd r))%N.

Definition is_space (c : N) : bool := existsb (in_range c) space_ranges.

(** The whitespace [int] skips around a number: the Unicode whitespace,
    but not the four separators 0x1c..0x1f. *)
Definition int_space (c : N) : bool :=
  is_space c && negb ((28 <=? c) && (c <=? 31))%N.

(** [str.upper()], character by character.  Only the letters a..z are
    mapped: the source uppercases a regex group that is a digit or x/X and
    compares an uppercased string with ['X'], and no other character
    uppercases to X. *)
Definition upper_char (c : N) : N :=
  if ((97 <=? c) && (c <=? 122))%N then (c - 32)%N else c.

Definition upper (s : str) : str := map upper_char s.

(** [str.lower()]: A..Z and the Latin-1 capitals 0xc0..0xde except 0xd7.
    The source lowers a text only to look for the phrase
    "yesterday's results" in it, and no character outside A..Z lowers to a
    character of that phrase. *)
Definition lower_char (c : N) : N :=
  if (((65 <=? c) && (c <=? 90)) ||
      ((192 <=? c) && (c <=? 222) && negb (c =? 215)))%N
  then (c + 32)%N else c.

Definition lower (s : str) : str := map lower_char s.

Fixpoint lstrip (s : str) : str :=
  match s with
  | c :: r => if is_space c then lstrip r else s
  | [] => []
  end.

Definition rstrip (s : str) : str := rev (lstrip (rev s)).

Definition strip (s : str) : str := rstrip (lstrip s).

(** [s.replace('**', '')]: left to right, occurrences do not overlap. *)
Fixpoint remove_bold (s : str) : str :=
  match s with
  | [] => []
  | a :: t =>
      match t with
      | b :: r =>
          if eqc a "*" && eqc b "*" then remove_bold r
          else a :: remove_bold t
      | [] => [a]
      end
  end.

Fixpoint starts_with (p s : str) : bool :=
  match p, s with
  | [], _ => true
  | x :: p', y :: s' => (x =? y)%N && starts_with p' s'
  | _ :: _, [] => false
  end.

(** [p in s] *)
Fixpoint contains (p s : str) : bool :=
  starts_with p s ||
  match s with
  | [] => false
  | _ :: r => contains p r
  end.

(** The longest prefix of characters satisfying [f], and the rest. *)
Fixpoint span (f : N -> bool) (s : str) : str * str :=
  match s with
  | c :: r =>
      if f c then let '(a, b) := span f r in (c :: a, b) else ([], s)
  | [] => ([], [])
  end.

(** Digits with single underscores between them, as [int] accepts them. *)
Fixpoint int_digits (acc : Z) (after_digit : bool) (s : str) : option Z :=
  match s with
  | [] => if after_digit then Some acc else None
  | c :: r =>
      if is_digit c then int_digits (10 * acc + digit_val c) true r
      else if eqc c "_" && after_digit then int_digits acc false r
      else None
  end.

Fixpoint int_lstrip (s : str) : str :=
  match s with
  | c :: r => if int_space c then int_lstrip r else s
  | [] => []
  end.

Definition int_strip (s : str) : str := rev (int_lstrip (rev (int_lstrip s))).

(** [sys.int_max_str_digits], by default: a literal with more digits is
    refused (underscores and the sign do not count). *)
Definition int_max_str_digits : nat := 4300.

Definition within_digit_limit (s : str) : bool :=
  (List.length (filter is_digit s) <=? int_max_str_digits)%nat.

(** The digits of a literal, after the sign. *)
Definition int_body (s : str) : option Z :=
  if within_digit_limit s then int_digits 0 false s else None.

(** [int(s)] in base 10: surrounding whitespace, an optional sign, digits
    of any script.  [None] stands for [ValueError]. *)
Definition python_int (s : str) : option Z :=
  match int_strip s with
  | c :: r =>
      if eqc c "-" then option_map Z.opp (int_body r)
      else if eqc c "+" then int_body r
      else int_body (c :: r)
  | [] => None
  end.

(** A run of decimal digits is that of 0..9, or lies beyond the Latin-1
    characters and holds no whitespace. *)
Definition zero_ok (z : N) : bool :=
  ((z =? 48) ||
   ((1632 <=? z) &&
    forallb (fun k => negb (is_space (z + k))) [0; 1; 2; 3; 4; 5; 6; 7; 8; 9]))%N.

End Text.

Import Text.

(** ** Scoring *)

(** [calculate_score(result_str)] *)
Definition calculate_score (result_str : str) : Z :=
  if str_eqb (upper result_str) (lit "X") then 0
  else
    match python_int result_str with
    | Some guesses => Z.max 0 (7 - guesses)
    | None => 0
    end.

(** ** The score pattern

    [WORDLE_SCORE_PATTERN = (\d|X)/6:\s*(.*?)(?=(\d|X)/6:|$)] compiled with
    [IGNORECASE | DOTALL]. *)

(** [(\d|X)] under [IGNORECASE] *)
Definition is_score_char (c : N) : bool :=
  is_digit c || eqc c "X" || eqc c "x".

(** [(\d|X)/6:] at the head of [s]: the token character and what follows. *)
Definition token_at (s : str) : option (N * str) :=
  match s with
  | c :: a :: b :: d :: r =>
      if is_score_char c && eqc a "/" && eqc b "6" && eqc d ":"
      then Some (c, r) else None
  | _ => None
  end.

(** [$] without [MULTILINE]: the end of the text, or just before a final
    line feed. *)
Definition at_end (s : str) : bool :=
  match s with
  | [] => true
  | [c] => eqc c "010"
  | _ => false
  end.

(** The lookahead [(?=(\d|X)/6:|$)]; its value is group 3. *)
Definition lookahead (s : str) : option str :=
  match token_at s with
  | Some (c, _) => Some [c]
  | None => if at_end s then Some [] else None
  end.

(** [(.*?)(?=...)] under [DOTALL]: the shortest prefix after which the
    lookahead holds; returns group 2, group 3 and the unconsumed text. *)
Fixpoint lazy_segment (s : str) : str * str * str :=
  match lookahead s, s with
  | Some ahead, _ => ([], ahead, s)
  | None, c :: r => let '(seg, ahead, rest) := lazy_segment r in (c :: seg, ahead, rest)
  | None, [] => ([], [], [])
  end.

(** One match of the score pattern. *)
Record re_match : Type := {
  m_token : N;   (* group 1 *)
  m_ws : str;        (* the text taken by [\s*] *)
  m_seg : str;       (* group 2 *)
  m_ahead : str      (* group 3 *)
}.

(** [m.group(0)] *)
Definition m_text (m : re_match) : str :=
  m_token m :: lit "/6:" ++ m_ws m ++ m_seg m.

(** The tuple [findall] returns for a match. *)
Definition groups (m : re_match) : str * str * str :=
  ([m_token m], m_seg m, m_ahead m).

(** The pattern tried at the head of [s].  [\s*] is greedy and is never
    given back: after any amount of whitespace the lazy group can still
    reach the end of the text, where [$] holds. *)
Definition match_score (s : str) : option (re_match * str) :=
  match token_at s with
  | Some (c, r) =>
      let '(ws, r1) := span is_space r in
      let '(seg, ahead, rest) := lazy_segment r1 in
      Some ({| m_token := c; m_ws := ws; m_seg := seg; m_ahead := ahead |}, rest)
  | None => None
  end.

(** The left-to-right scan of [findall]/[finditer] for a pattern whose
    matches are not empty: after a match the scan resumes where the match
    ended, otherwise one character further. *)
Fixpoint scan {A : Type} (match_at : str -> option (A * str))
    (fuel : nat) (s : str) : list A :=
  match fuel with
  | O => []
  | S n =>
      match match_at s with
      | Some (a, rest) => a :: scan match_at n rest
      | None =>
          match s with
          | [] => []
          | _ :: r => scan match_at n r
          end
      end
  end.

Definition finditer (s : str) : list re_match :=
  scan match_score (S (List.length s)) s.

(** [WORDLE_SCORE_PATTERN.findall(content_to_parse)] *)
Definition findall (s : str) : list (str * str * str) :=
  map groups (finditer s).

(** [<@!?(\d+)>] at the head of [s]: group 1 and what follows. *)
Definition match_mention (s : str) : option (str * str) :=
  match s with
  | a :: b :: r =>
      if eqc a "<" && eqc b "@" then
        let r' := match r with
                  | c :: r2 => if eqc c "!" then r2 else r
                  | [] => r
                  end in
        let '(ds, r3) := span is_digit r' in
        match ds, r3 with
        | _ :: _, c :: r4 => if eqc c ">" then Some (ds, r4) else None
        | _, _ => None
        end
      else None
  | _ => None
  end.

(** [re.findall(r'<@!?(\d+)>', mention_segment)] *)
Definition find_mentions (s : str) : list str :=
  scan match_mention (S (List.length s)) s.

(** The number of places of [s] where [(\d|X)/6:] occurs. *)
Fixpoint count_tokens (s : str) : nat :=
  match s with
  | [] => O
  | _ :: r =>
      (match token_at s with Some _ => 1 | None => 0 end + count_tokens r)%nat
  end.

(** ** The leaderboard *)

Record player : Type := {
  username : str;
  total_score : Z;
  games_played : Z
}.

(** The [dict] from user id to record, in insertion order. *)
Definition leaderboard := list (str * player).

(** [d.get(k)] *)
Fixpoint lookup (k : str) (d : leaderboard) : option player :=
  match d with
  | [] => None
  | (k', v) :: r => if str_eqb k k' then Some v else lookup k r
  end.

(** [d[k] = v]: replaces the value in place, or appends a new key. *)
Fixpoint store (k : str) (v : player) (d : leaderboard) : leaderboard :=
  match d with
  | [] => [(k, v)]
  | (k', v') :: r =>
      if str_eqb k k' then (k', v) :: r else (k', v') :: store k v r
  end.

(** [d[k][field] = ...] for a key that is present. *)
Fixpoint adjust (k : str) (f : player -> player) (d : leaderboard) : leaderboard :=
  match d with
  | [] => []
  | (k', v) :: r =>
      if str_eqb k k' then (k', f v) :: r else (k', v) :: adjust k f r
  end.

Definition add_score (points : Z) (p : player) : player :=
  {| username := username p;
     total_score := total_score p + points;
     games_played := games_played p |}.

Definition add_game (p : player) : player :=
  {| username := username p;
     total_score := total_score p;
     games_played := games_played p + 1 |}.

Definition set_username (name : str) (p : player) : player :=
  {| username := name;
     total_score := total_score p;
     games_played := games_played p |}.

Definition score_of (d : leaderboard) (k : str) : Z :=
  match lookup k d with Some p => total_score p | None => 0 end.

Definition games_of (d : leaderboard) (k : str) : Z :=
  match lookup k d with Some p => games_played p | None => 0 end.

(** ** Ingestion *)

Definition WORDLE_BOT_ID : Z := 1211781489931452447.

Record message : Type := {
  msg_id : Z;
  author_id : Z;
  content : str
}.

(** What [client.fetch_user] does for an id. *)
Inductive fetch_outcome : Type :=
| Fetched (name : str)
| NotFound
| Failed.

Section Ingestion.

Variable fetch_user : Z -> fetch_outcome.

(** The [try]/[except] around [client.fetch_user(int(user_id))]. *)
Definition resolve_username (user_id : str) : str :=
  match python_int user_id with
  | Some n =>
      match fetch_user n with
      | Fetched name => name
      | NotFound => lit "User " ++ user_id ++ lit " (Not Found)"
      | Failed => lit "User " ++ user_id ++ lit " (Error)"
      end
  | None => lit "User " ++ user_id ++ lit " (Error)"
  end.

(** The body of [for user_id in user_mentions]. *)
Definition log_mention (points : Z) (st : leaderboard * Z) (user_id : str)
    : leaderboard * Z :=
  let '(data, scores_logged) := st in
  let name := resolve_username user_id in
  let data1 :=
    match lookup user_id data with
    | None => store user_id
                {| username := name; total_score := 0; games_played := 0 |} data
    | Some _ => data
    end in
  let data2 := adjust user_id (add_score points) data1 in
  let data3 := adjust user_id add_game data2 in
  let data4 := adjust user_id (set_username name) data3 in
  (data4, scores_logged + 1).

(** The body of [for match in score_matches]. *)
Definition log_match (st : leaderboard * Z) (mt : str * str * str)
    : leaderboard * Z :=
  let '(g1, g2, _) := mt in
  let score_char := upper g1 in
  let mention_segment := g2 in
  let points := calculate_score score_char in
  let user_mentions := find_mentions mention_segment in
  fold_left (log_mention points) user_mentions st.

(** [content_to_parse.replace('**', '').strip()] *)
Definition normalize (body : str) : str := strip (remove_bold body).

(** [process_wordle_message(message, leaderboard_data, client)]: the value
    returned and the leaderboard after the call (the source updates the
    [dict] it is given).  The lines printed to the console are left out. *)
Definition process_wordle_message (msg : message) (leaderboard_data : leaderboard)
    : bool * leaderboard :=
  if negb (author_id msg =? WORDLE_BOT_ID) then (false, leaderboard_data)
  else
    match content msg with
    | [] => (false, leaderboard_data)
    | _ =>
        let content_to_parse := normalize (content msg) in
        let score_matches := findall content_to_parse in
        match score_matches with
        | [] => (false, leaderboard_data)
        | _ =>
            let '(data, scores_logged) :=
              fold_left log_match score_matches (leaderboard_data, 0) in
            (0 <? scores_logged, data)
        end
    end.

(** ** Backfill *)

Definition KEYWORD_PHRASE : str := lit "yesterday's results".

Definition is_wordle_result (msg : message) : bool :=
  let cleaned_content := lower (strip (content msg)) in
  contains (lower KEYWORD_PHRASE) cleaned_content
  && (author_id msg =? WORDLE_BOT_ID).

(** The body of [async for message in channel.history(limit=limit)]. *)
Definition backfill_step (command_id : Z) (st : leaderboard * Z) (msg : message)
    : leaderboard * Z :=
  let '(data, logged_count) := st in
  if msg_id msg =? command_id then st
  else if is_wordle_result msg then
    let '(ok, data') := process_wordle_message msg data in
    (data', if ok then logged_count + 1 else logged_count)
  else st.

Record backfill_run : Type := {
  bf_data : leaderboard;          (* [leaderboard_data] after the scan *)
  bf_logged : Z;                  (* [logged_count] *)
  bf_saves : list leaderboard     (* the arguments of [save_leaderboard], in order *)
}.

(** [backfill_wordle_leaderboard]: [loaded] is what [load_leaderboard()]
    returned, [command_id] is [ctx.message.id], [history] is the channel,
    newest message first.  The replies sent to the channel are left out. *)
Definition backfill_wordle_leaderboard (loaded : leaderboard) (command_id : Z)
    (history : list message) (limit : nat) : backfill_run :=
  let '(data, logged_count) :=
    fold_left (backfill_step command_id) (firstn limit history) (loaded, 0) in
  {| bf_data := data;
     bf_logged := logged_count;
     bf_saves := if 0 <? logged_count then [data] else [] |}.

End Ingestion.

(** ** Loading *)

Inductive exn : Type :=
| FileNotFoundError
| JSONDecodeError
| PermissionError
| IsADirectoryError
| UnicodeDecodeError
| OverflowError.

Inductive outcome (A : Type) : Type :=
| Returned (a : A)
| Raised (e : exn).

Arguments Returned {A} a.
Arguments Raised {A} e.

(** What the file system answers: [os.path.exists(LEADERBOARD_FILE)], and
    the result of opening the file and running [json.load] on it. *)
Record storage : Type := {
  file_exists : bool;
  read_json : outcome leaderboard
}.

(** [except (FileNotFoundError, json.JSONDecodeError)] *)
Definition handled (e : exn) : bool :=
  match e with
  | FileNotFoundError | JSONDecodeError => true
  | _ => false
  end.

(** [load_leaderboard()] *)
Definition load_leaderboard (fs : storage) : outcome leaderboard :=
  if negb (file_exists fs) then Returned []
  else
    match read_json fs with
    | Returned data => Returned data
    | Raised e => if handled e then Returned [] else Raised e
    end.

(** ** Floats *)

Local Open Scope Q_scope.

Definition Qltb (a b : Q) : bool :=
  match a ?= b with Lt => true | _ => false end.

(** 2 to the power [e]. *)
Definition pow2 (e : Z) : Q :=
  match e with
  | Z0 => 1
  | Zpos p => inject_Z (Zpos (2 ^ p))
  | Zneg p => 1 # (2 ^ p)
  end.

(** The integer part of the binary logarithm of a positive rational. *)
Definition ilog2 (a : Q) : Z :=
  let l := (Z.log2 (Qnum a) - Z.log2 (Z.pos (Qden a)))%Z in
  if Qle_bool (pow2 l) a then l else (l - 1)%Z.

(** The nearest integer, a tie going to the even one. *)
Definition round_even (t : Q) : Z :=
  let f := Qfloor t in
  match ((t - inject_Z f)%Q ?= (1 # 2))%Q with
  | Lt => f
  | Gt => (f + 1)%Z
  | Eq => if Z.even f then f else (f + 1)%Z
  end.

(** The nearest double: 53 significant bits, exponents from -1074. *)
Definition round_double (q : Q) : Q :=
  if Qeq_bool q 0 then 0
  else
    let a := Qabs q in
    let e := Z.max (ilog2 a - 52) (-1074) in
    let m := inject_Z (round_even (a / pow2 e)) * pow2 e in
    if Qle_bool 0 q then m else - m.

(** From this magnitude on a quotient rounds to 2^1024, which no double
    holds. *)
Definition overflow_threshold : Q := inject_Z (2 ^ 54 - 1) * pow2 970.

(** [a / b] on [int]s, for [b] other than 0: the nearest double of the
    quotient; [None] stands for [OverflowError]. *)
Definition true_divide (a b : Z) : option Q :=
  let q := inject_Z a / inject_Z b in
  if Qle_bool overflow_threshold (Qabs q) then None
  else Some (round_double q).

(** [x - y] on floats. *)
Definition float_sub (x y : Q) : Q := round_double (x - y).

(** [f"{x:.2f}"]: whether a minus sign is printed, and the number of
    hundredths printed after it. *)
Definition format_2f (x : Q) : bool * Z :=
  (Qltb x 0, round_even (Qabs x * 100)).

(** ** Ranking *)

(** The key of an item cannot be computed: its division raises. *)
Definition key_raises (item : str * player) : bool :=
  (0 <? games_played (snd item))%Z &&
  match true_divide (total_score (snd item)) (games_played (snd item)) with
  | Some _ => false
  | None => true
  end.

(** The second component of the sort key, for a record whose key can be
    computed; [sorted] is not reached otherwise (see [key_raises] and
    [display_wordle_leaderboard]). *)
Definition average_guesses (p : player) : Q :=
  if (0 <? games_played p)%Z
  then
    match true_divide (total_score p) (games_played p) with
    | Some avg_points => float_sub 7 avg_points
    | None => 7
    end
  else 7.

Definition sort_key (item : str * player) : Z * Q :=
  (total_score (snd item), average_guesses (snd item)).

(** [a < b] on the key tuples. *)
Definition key_lt (a b : Z * Q) : bool :=
  if (fst a =? fst b)%Z then Qltb (snd a) (snd b) else (fst a <? fst b)%Z.

(** [sorted(..., reverse=True)] is stable: items with equal keys keep the
    order they had, the others come out with the larger key first. *)
Fixpoint insert_desc (x : str * player) (l : leaderboard) : leaderboard :=
  match l with
  | [] => [x]
  | y :: r =>
      if key_lt (sort_key x) (sort_key y) then y :: insert_desc x r
      else x :: l
  end.

Definition sorted_board (leaderboard_data : leaderboard) : leaderboard :=
  fold_right insert_desc [] leaderboard_data.

Inductive badge : Type :=
| Gold | Silver | Bronze
| Numbered (rank : nat).

(** [avg_guess_display]: ["X/6"], ["N/A/6"], or the average as [:.2f]
    prints it, a sign and a number of hundredths. *)
Inductive avg_display : Type :=
| FailMarker
| NotAvailable
| Average (minus : bool) (hundredths : Z).

(** One line of [rank_text]. *)
Record rank_line : Type := {
  line_badge : badge;
  line_user : str;
  line_score : Z;
  line_avg : avg_display;
  line_games : Z
}.

Definition badge_of (rank : nat) : badge :=
  match rank with
  | 1%nat => Gold
  | 2%nat => Silver
  | 3%nat => Bronze
  | _ => Numbered rank
  end.

(** The average of a line; the division is made for every record with a
    game, and may raise. *)
Definition avg_of (score games : Z) : outcome avg_display :=
  if (0 <? games)%Z then
    match true_divide score games with
    | None => Raised OverflowError
    | Some avg_points_per_game =>
        let avg_guess := float_sub 7 avg_points_per_game in
        if (score =? 0)%Z then Returned FailMarker
        else
          let '(minus, hundredths) := format_2f avg_guess in
          Returned (Average minus hundredths)
    end
  else Returned NotAvailable.

(** [for index, (user_id, data) in enumerate(sorted_board)] *)
Fixpoint rank_text (index : nat) (board : leaderboard)
    : outcome (list rank_line) :=
  match board with
  | [] => Returned []
  | (user_id, data) :: rest =>
      match avg_of (total_score data) (games_played data) with
      | Raised e => Raised e
      | Returned avg =>
          match rank_text (S index) rest with
          | Raised e => Raised e
          | Returned lines =>
              Returned
                ({| line_badge := badge_of (index + 1);
                    line_user := username data;
                    line_score := total_score data;
                    line_avg := avg;
                    line_games := games_played data |} :: lines)
          end
      end
  end.

(** What the command does: the notice for an empty leaderboard, the embed
    with the ranks, or an exception, after which nothing is sent. *)
Inductive reply : Type :=
| EmptyNotice
| Ranks (lines : list rank_line)
| Crashed (e : exn).

(** [display_wordle_leaderboard], given what [load_leaderboard()] returned.
    [sorted] computes the key of every item before it orders them.  The
    send is taken to succeed. *)
Definition display_wordle_leaderboard (leaderboard_data : leaderboard) : reply :=
  match leaderboard_data with
  | [] => EmptyNotice
  | _ =>
      if existsb key_raises leaderboard_data then Crashed OverflowError
      else
        match rank_text 0 (sorted_board leaderboard_data) with
        | Returned lines => Ranks lines
        | Raised e => Crashed e
        end
  end.

Local Close Scope Q_scope.

(** ** The scoring rule as the specification words it *)

(** The failure marker gives 0, a guess count 1..6 gives 7 minus the count,
    every other token gives 0. *)
Definition score_spec (token : str) : Z :=
  match token with
  | [c] =>
      if eqc c "X" || eqc c "x" then 0
      else if ((49 <=? c) && (c <=? 54))%N then Z.max 0 (7 - (Z.of_N c - 48))
      else 0
  | _ => 0
  end.

(** A score token as the specification words it: a digit 1..6 or the
    failure marker. *)
Definition spec_token (g1 : str) : bool :=
  match g1 with
  | [c] =>
      ((49 <=? c) && (c <=? 54))%N
      || eqc c "X" || eqc c "x"
  | _ => false
  end.

(** The characters a score token may be, written out: a decimal digit of
    any script, or the letter X in either case. *)
Definition token_class (c : N) : bool :=
  existsb (fun z => (z <=? c) && (c <? z + 10))%N digit_zeros
  || (c =? 88)%N || (c =? 120)%N.

(** The token characters at the places where a character of the class is
    followed by [/6:], from left to right. *)
Fixpoint token_occurrences (s : str) : list str :=
  match s with
  | [] => []
  | c :: r =>
      if token_class c && starts_with [47; 54; 58]%N r
      then [c] :: token_occurrences r
      else token_occurrences r
  end.

(** What the loop of [process_wordle_message] reads off the matches: the
    score character and the user ids mentioned in the segment. *)
Definition parsed_results (content_to_parse : str) : list (str * list str) :=
  map (fun mt => let '(g1, g2, _) := mt in (upper g1, find_mentions g2))
      (findall content_to_parse).

(** Messages ingested one after the other into one shared snapshot,
    counting the messages that logged a score. *)
Definition ingest_all (fetch_user : Z -> fetch_outcome) (msgs : list message)
    (st : leaderboard * Z) : leaderboard * Z :=
  fold_left
    (fun st msg =>
       let '(ok, data') := process_wordle_message fetch_user msg (fst st) in
       (data', if ok then snd st + 1 else snd st))
    msgs st.

(** The snapshots that ingestion can build from the empty leaderboard. *)
Inductive reachable : leaderboard -> Prop :=
| reach_empty : reachable []
| reach_ingest (fetch_user : Z -> fetch_outcome) (msg : message) (d : leaderboard) :
    reachable d -> reachable (snd (process_wordle_message fetch_user msg d)).

Definition well_scored (d : leaderboard) : Prop :=
  Forall (fun item => 0 <= total_score (snd item) <= 7 * games_played (snd item)) d.





(** What one ingestion of a message adds to a player: the matches the
    message yields, and the games and points they give to the key [k]. *)
Definition message_matches (msg : message) : list (str * str * str) :=
  if author_id msg =? WORDLE_BOT_ID then
    match content msg with
    | [] => []
    | _ => findall (normalize (content msg))
    end
  else [].

Fixpoint count_key (k : str) (ids : list str) : Z :=
  match ids with
  | [] => 0
  | id :: r => (if str_eqb k id then 1 else 0) + count_key k r
  end.

Fixpoint gained_games (k : str) (mts : list (str * str * str)) : Z :=
  match mts with
  | [] => 0
  | (_, g2, _) :: r => count_key k (find_mentions g2) + gained_games k r
  end.

Fixpoint gained_score (k : str) (mts : list (str * str * str)) : Z :=
  match mts with
  | [] => 0
  | (g1, g2, _) :: r =>
      calculate_score (upper g1) * count_key k (find_mentions g2)
      + gained_score k r
  end.

(** The three updates of a record in [log_mention], in one step. *)
Definition bump (name : str) (points : Z) (p : player) : player :=
  set_username name (add_game (add_score points p)).


(** The order [sorted(..., reverse=True)] leaves between neighbours: the
    later item does not have the larger key. *)
Definition not_below (x y : str * player) : Prop :=
  key_lt (sort_key x) (sort_key y) = false.

(** ** Sample data *)

Module Sample.

Definition names (n : Z) : fetch_outcome :=
  if n =? 111 then Fetched (lit "ann")
  else if n =? 222 then Fetched (lit "bob")
  else NotFound.

Definition post (id : Z) (text : string) : message :=
  {| msg_id := id; author_id := WORDLE_BOT_ID; content := lit text |}.

(** Scenario A of the specification. *)
Definition scenario_A : message :=
  post 10 "1/6: <@!111> 2/6: <@!222> <@!333>".

(** Two days of results: 111 solves once in one guess; 222 solves twice in
    four guesses. *)
Definition day_one : message := post 11 "1/6: <@111> 4/6: <@222>".
Definition day_two : message := post 12 "4/6: <@222>".

Definition tie_board : leaderboard :=
  snd (process_wordle_message names day_two
         (snd (process_wordle_message names day_one []))).


(** A stored record whose quotient no float holds. *)
Definition huge_board : leaderboard :=
  [(lit "111", {| username := lit "ann"; total_score := 10 ^ 400;
                  games_played := 1 |})].

(** Scenario C: three result posts, a post of the bot without the phrase,
    a post of somebody else with it, and the command that starts the scan. *)
Definition window : list message :=
  [ {| msg_id := 99; author_id := 7; content := lit "!backfill_wordle" |};
    post 5 "Here are yesterday's results: 3/6: <@111>";
    {| msg_id := 4; author_id := 7;
       content := lit "yesterday's results: 1/6: <@7>" |};
    post 3 "**Yesterday's results** 2/6: <@222> X/6: <@111>";
    post 2 "Today's puzzle is out! 1/6: <@111>";
    post 1 "yesterday's results  6/6: <@!111> <@!222>" ].

End Sample.

(** ** Live messages and replay by id *)

(** The texts the handlers send to the channel. *)
Inductive notice : Type :=
| ScoresProcessed                 (* "Wordle scores processed and leaderboard updated!" *)
| Attempting (message_id : Z)     (* "Attempting to fetch and log message ID: ..." *)
| AuthorMismatch (author : Z)     (* "Error: Message Author ID (...) does not match ..." *)
| ReplaySuccess                   (* "Success! Wordle scores from that message ..." *)
| NothingExtracted                (* "Warning: Message found, but no valid Wordle scores ..." *)
| MessageMissing                  (* "Error: Message not found in this channel." *)
| ReplayError.                    (* "An error occurred during logging: ..." *)

(** What a handler does to the outside, in order. *)
Inductive action : Type :=
| Saved (data : leaderboard)      (* [save_leaderboard(data)] *)
| Sent (n : notice)               (* [channel.send] / [ctx.send] *)
| Commands (msg : message).       (* [client.process_commands(message)] *)

(** A run of a handler: its actions, and the exception that ended it, if
    any.  Writes and sends are taken to succeed. *)
Record run : Type := {
  actions : list action;
  failure : option exn
}.

(** [on_message(message)]: [client_user] is the id of [client.user]. *)
Definition on_message (fetch_user : Z -> fetch_outcome) (client_user : Z)
    (fs : storage) (msg : message) : run :=
  if author_id msg =? client_user then {| actions := []; failure := None |}
  else
    match load_leaderboard fs with
    | Raised e => {| actions := []; failure := Some e |}
    | Returned leaderboard_data =>
        let logged :=
          if author_id msg =? WORDLE_BOT_ID then
            let '(ok, data) :=
              process_wordle_message fetch_user msg leaderboard_data in
            if ok then
              Saved data ::
              (if starts_with (lit "!backfill_wordle") (content msg) then []
               else [Sent ScoresProcessed])
            else []
          else [] in
        {| actions := logged ++ [Commands msg]; failure := None |}
    end.

(** What [ctx.channel.fetch_message(message_id)] does. *)
Inductive fetched : Type :=
| Got (msg : message)
| Missing            (* raises [discord.NotFound] *)
| Broken.            (* raises another exception *)

(** [log_by_id(ctx, message_id)] *)
Definition log_by_id (fetch_user : Z -> fetch_outcome) (fs : storage)
    (fetch_message : Z -> fetched) (message_id : Z) : run :=
  match load_leaderboard fs with
  | Raised e => {| actions := [Sent (Attempting message_id)]; failure := Some e |}
  | Returned leaderboard_data =>
      {| actions :=
           Sent (Attempting message_id) ::
           match fetch_message message_id with
           | Got msg =>
               if negb (author_id msg =? WORDLE_BOT_ID)
               then [Sent (AuthorMismatch (author_id msg))]
               else
                 let '(ok, data) :=
                   process_wordle_message fetch_user msg leaderboard_data in
                 if ok then [Saved data; Sent ReplaySuccess]
                 else [Sent NothingExtracted]
           | Missing => [Sent MessageMissing]
           | Broken => [Sent ReplayError]
           end;
         failure := None |}
  end.

(** The snapshots a run saved, and the notices it sent. *)
Fixpoint saves (acts : list action) : list leaderboard :=
  match acts with
  | [] => []
  | Saved d :: r => d :: saves r
  | _ :: r => saves r
  end.

Fixpoint notices (acts : list action) : list notice :=
  match acts with
  | [] => []
  | Sent n :: r => n :: notices r
  | _ :: r => notices r
  end.

(** ** Measures used in the statements *)

(** The number of mentions in the segments of the matches. *)
Fixpoint total_mentions (mts : list (str * str * str)) : nat :=
  match mts with
  | [] => O
  | (_, g2, _) :: r => (List.length (find_mentions g2) + total_mentions r)%nat
  end.

Definition keys (d : leaderboard) : list str := map fst d.

(** Two items that the sort key does not tell apart. *)
Definition same_key (x y : str * player) : bool :=
  negb (key_lt (sort_key x) (sort_key y))
  && negb (key_lt (sort_key y) (sort_key x)).

(** Every match but the last looks ahead at the token of the next one. *)
Fixpoint linked (ms : list re_match) : Prop :=
  match ms with
  | [] => True
  | m :: r =>
      match r with
      | [] => m_ahead m = []
      | m' :: _ => m_ahead m = [m_token m']
      end /\ linked r
  end.

(** The record of the user [k] carries the name resolved for [k]. *)
Definition named (fetch_user : Z -> fetch_outcome) (k : str) (d : leaderboard)
    : Prop :=
  exists p, lookup k d = Some p /\ username p = resolve_username fetch_user k.

(** [key_lt] read as a proposition. *)
Definition key_below (a b : Z * Q) : Prop :=
  fst a < fst b \/ (fst a = fst b /\ (snd a < snd b)%Q).

(** The order the ranking leaves between any two of its items: the later
    one has the lower total score, or the same total score and no larger
    average of guesses. *)
Definition ranks_before (x y : str * player) : Prop :=
  total_score (snd y) < total_score (snd x) \/
  (total_score (snd x) = total_score (snd y) /\
   (average_guesses (snd y) <= average_guesses (snd x))%Q).


(** * Properties *)

Example score_1 : calculate_score (lit "1") = 6. Proof. vm_compute. reflexivity. Qed.
Example score_6 : calculate_score (lit "6") = 1. Proof. vm_compute. reflexivity. Qed.
Example score_X : calculate_score (lit "X") = 0. Proof. vm_compute. reflexivity. Qed.
Example score_x : calculate_score (lit "x") = 0. Proof. vm_compute. reflexivity. Qed.
Example score_9 : calculate_score (lit "9") = 0. Proof. vm_compute. reflexivity. Qed.
Example score_padded : calculate_score (lit " 3 ") = 4. Proof. vm_compute. reflexivity. Qed.
Example score_negative : calculate_score (lit "-1") = 8. Proof. vm_compute. reflexivity. Qed.
Example score_underscore : calculate_score (lit "1_0") = 0. Proof. vm_compute. reflexivity. Qed.
Example score_not_int : calculate_score (lit "1__0") = 0. Proof. vm_compute. reflexivity. Qed.

(** The Arabic-Indic digits three and zero, a digit before a file
    separator, and a literal of 4301 digits. *)
Example score_other_script : calculate_score [1635%N] = 4.
Proof. vm_compute. reflexivity. Qed.
Example score_other_zero : calculate_score [1632%N] = 7.
Proof. vm_compute. reflexivity. Qed.
Example score_separator : calculate_score [51%N; 28%N] = 0.
Proof. vm_compute. reflexivity. Qed.
Example int_long_literal :
  python_int (repeat 49%N 4300) <> None /\ python_int (repeat 49%N 4301) = None.
Proof. vm_compute. split; [discriminate | reflexivity]. Qed.

(** ** Characters and strings *)

Ltac chr_norm :=
  repeat match goal with
  | |- context [chr ?a] =>
      let v := eval vm_compute in (chr a) in change (chr a) with v
  | H : context [chr ?a] |- _ =>
      let v := eval vm_compute in (chr a) in change (chr a) with v in H
  end.

Lemma eqc_eq (c : N) (a : ascii) : eqc c a = true <-> c = chr a.
Proof. unfold eqc. apply N.eqb_eq. Qed.

Lemma eqc_neq (c : N) (a : ascii) : eqc c a = false <-> c <> chr a.
Proof. unfold eqc. apply N.eqb_neq. Qed.

Lemma str_eqb_eq (a b : str) : str_eqb a b = true <-> a = b.
Proof.
  revert b; induction a as [|x a IH]; intros [|y b]; simpl; split;
    try congruence; try reflexivity.
  - rewrite andb_true_iff, N.eqb_eq, IH. intros [-> ->]. reflexivity.
  - intros E. injection E as -> ->.
    rewrite andb_true_iff, N.eqb_eq, IH. split; reflexivity.
Qed.

Lemma str_eqb_refl (a : str) : str_eqb a a = true.
Proof. apply str_eqb_eq. reflexivity. Qed.

Lemma str_eqb_neq (a b : str) : str_eqb a b = false <-> a <> b.
Proof.
  split.
  - intros E H. apply str_eqb_eq in H. congruence.
  - intros H. destruct (str_eqb a b) eqn:E; [|reflexivity].
    apply str_eqb_eq in E. contradiction.
Qed.

Ltac split_key a b :=
  let E := fresh "E" in
  destruct (str_eqb a b) eqn:E;
  [apply str_eqb_eq in E | apply str_eqb_neq in E].

Lemma is_space_iff (c : N) :
  is_space c = true <->
  (9 <= c <= 13 \/ 28 <= c <= 32 \/ c = 133 \/ c = 160 \/ c = 5760 \/
   8192 <= c <= 8202 \/ 8232 <= c <= 8233 \/ c = 8239 \/ c = 8287 \/
   c = 12288)%N.
Proof.
  unfold is_space, space_ranges, in_range. cbn [existsb fst snd].
  rewrite !orb_true_iff, !andb_true_iff, !N.leb_le. lia.
Qed.

Lemma is_space_false (c : N) :
  ~ (9 <= c <= 13 \/ 28 <= c <= 32 \/ c = 133 \/ c = 160 \/ c = 5760 \/
     8192 <= c <= 8202 \/ 8232 <= c <= 8233 \/ c = 8239 \/ c = 8287 \/
     c = 12288)%N ->
  is_space c = false.
Proof.
  intros H. destruct (is_space c) eqn:E; [|reflexivity].
  apply is_space_iff in E. contradiction.
Qed.

Lemma zeros_ok : forallb zero_ok digit_zeros = true.
Proof. vm_compute. reflexivity. Qed.

Lemma decimal_Some (c : N) (v : Z) :
  decimal c = Some v ->
  exists z, In z digit_zeros /\ (z <= c < z + 10)%N /\ v = Z.of_N (c - z).
Proof.
  unfold decimal. destruct (find (in_run c) digit_zeros) as [z|] eqn:F;
    [|discriminate].
  intros E. injection E as <-. apply find_some in F. destruct F as [Hin Hr].
  unfold in_run in Hr. apply andb_true_iff in Hr.
  rewrite N.leb_le, N.ltb_lt in Hr. exists z. repeat split; tauto.
Qed.

(** A decimal digit has a value from 0 to 9, is one of 0..9 or lies beyond
    the Latin-1 characters, and is no whitespace. *)
Lemma decimal_facts (c : N) (v : Z) :
  decimal c = Some v ->
  0 <= v <= 9 /\
  ((48 <= c <= 57)%N /\ v = Z.of_N c - 48 \/ (1632 <= c)%N) /\
  is_space c = false.
Proof.
  intros H. destruct (decimal_Some c v H) as (z & Hin & Hr & ->).
  pose proof zeros_ok as Hz. rewrite forallb_forall in Hz.
  specialize (Hz z Hin). unfold zero_ok in Hz.
  apply orb_true_iff in Hz. split; [lia|]. destruct Hz as [Hz | Hz].
  - apply N.eqb_eq in Hz. subst z. split; [left; lia|].
    apply is_space_false. lia.
  - apply andb_true_iff in Hz. destruct Hz as [Hz Hs].
    apply N.leb_le in Hz. split; [right; lia|].
    rewrite forallb_forall in Hs. specialize (Hs (c - z)%N).
    replace (z + (c - z))%N with c in Hs by lia.
    apply negb_true_iff, Hs.
    assert (Hk : (c - z = 0 \/ c - z = 1 \/ c - z = 2 \/ c - z = 3 \/ c - z = 4 \/
                  c - z = 5 \/ c - z = 6 \/ c - z = 7 \/ c - z = 8 \/ c - z = 9)%N)
      by lia.
    simpl. intuition congruence.
Qed.

Lemma decimal_ascii (c : N) :
  (48 <= c <= 57)%N -> decimal c = Some (Z.of_N c - 48).
Proof.
  intros H.
  assert (Hc : (c = 48 \/ c = 49 \/ c = 50 \/ c = 51 \/ c = 52 \/ c = 53 \/
                c = 54 \/ c = 55 \/ c = 56 \/ c = 57)%N) by lia.
  repeat (destruct Hc as [-> | Hc]; [reflexivity|]). subst c. reflexivity.
Qed.

Lemma decimal_low_None (c : N) :
  (c < 48 \/ 57 < c < 1632)%N -> decimal c = None.
Proof.
  intros H. destruct (decimal c) as [v|] eqn:E; [|reflexivity].
  apply decimal_facts in E. lia.
Qed.

Lemma is_digit_decimal (c : N) :
  is_digit c = true <-> exists v, decimal c = Some v.
Proof.
  unfold is_digit. destruct (decimal c) as [v|]; split; try discriminate.
  - intros _. exists v. reflexivity.
  - reflexivity.
  - intros [v H]. discriminate H.
Qed.

Lemma digit_not_space (c : N) : is_digit c = true -> is_space c = false.
Proof.
  intros H. apply is_digit_decimal in H. destruct H as [v H].
  apply decimal_facts in H. tauto.
Qed.

Lemma digit_bounds (c : N) : is_digit c = true -> (48 <= c <= 57 \/ 1632 <= c)%N.
Proof.
  intros H. apply is_digit_decimal in H. destruct H as [v H].
  apply decimal_facts in H. lia.
Qed.

Lemma digit_val_range (c : N) : is_digit c = true -> 0 <= digit_val c <= 9.
Proof.
  intros H. apply is_digit_decimal in H. destruct H as [v H].
  unfold digit_val. rewrite H. apply decimal_facts in H. tauto.
Qed.

Lemma score_char_bounds (c : N) :
  is_score_char c = true -> (48 <= c <= 57 \/ c = 88 \/ c = 120 \/ 1632 <= c)%N.
Proof.
  unfold is_score_char. rewrite !orb_true_iff, !eqc_eq. chr_norm.
  intros [[H | H] | H]; [apply digit_bounds in H|..]; lia.
Qed.

Lemma space_not_score_char (c : N) :
  is_space c = true -> is_score_char c = false.
Proof.
  intros H. destruct (is_score_char c) eqn:E; [|reflexivity].
  unfold is_score_char in E. rewrite !orb_true_iff, !eqc_eq in E. chr_norm.
  destruct E as [[E | E] | E].
  - apply digit_not_space in E. congruence.
  - subst c. discriminate H.
  - subst c. discriminate H.
Qed.

Lemma span_app (f : N -> bool) (s a b : str) :
  span f s = (a, b) -> s = a ++ b /\ forallb f a = true.
Proof.
  revert a b; induction s as [|c r IH]; simpl; intros a b E.
  - injection E as <- <-. split; reflexivity.
  - destruct (f c) eqn:Fc.
    + destruct (span f r) as [a' b'] eqn:Er. injection E as <- <-.
      destruct (IH _ _ eq_refl) as [-> Hall]. simpl. rewrite Fc, Hall.
      split; reflexivity.
    + injection E as <- <-. split; reflexivity.
Qed.

(** ** Scoring *)

Lemma upper_X_tokens (token : str) :
  upper token = lit "X" -> token = lit "X" \/ token = lit "x".
Proof.
  destruct token as [|c [|c' r]]; simpl; try discriminate.
  intros E. injection E as E. unfold upper_char in E. chr_norm.
  destruct ((97 <=? c) && (c <=? 122))%N eqn:L.
  - right. apply andb_true_iff in L. rewrite !N.leb_le in L.
    replace c with 120%N by lia. reflexivity.
  - left. subst c. reflexivity.
Qed.

(** [int] on a string of one character reads the value of a decimal
    digit and refuses everything else. *)
Lemma python_int_single (c : N) : python_int [c] = decimal c.
Proof.
  unfold python_int, int_strip. cbn [int_lstrip].
  destruct (int_space c) eqn:S.
  - cbn. unfold int_space in S. apply andb_true_iff in S. destruct S as [S _].
    destruct (decimal c) as [v|] eqn:D; [|reflexivity].
    apply decimal_facts in D. destruct D as (_ & _ & D). congruence.
  - cbn [rev app int_lstrip]. rewrite S. cbn [rev app].
    destruct (eqc c "-") eqn:E1.
    { apply eqc_eq in E1. subst c. reflexivity. }
    destruct (eqc c "+") eqn:E2.
    { apply eqc_eq in E2. subst c. reflexivity. }
    unfold int_body, within_digit_limit. cbn [filter].
    assert (L : (List.length (if is_digit c then [c] else []) <=? int_max_str_digits)%nat
                = true).
    { destruct (is_digit c); reflexivity. }
    rewrite L. cbn [int_digits]. unfold is_digit, digit_val.
    destruct (decimal c) as [v|]; [f_equal; lia|].
    rewrite andb_false_r. reflexivity.
Qed.

Lemma calculate_score_single (c : N) :
  calculate_score [c]
  = if (c =? 88)%N || (c =? 120)%N then 0
    else match decimal c with
         | Some v => Z.max 0 (7 - v)
         | None => 0
         end.
Proof.
  unfold calculate_score. rewrite python_int_single.
  destruct (str_eqb (upper [c]) (lit "X")) eqn:E.
  - apply str_eqb_eq, upper_X_tokens in E. destruct E as [E | E];
      injection E as ->; reflexivity.
  - destruct ((c =? 88)%N || (c =? 120)%N) eqn:X; [|reflexivity].
    apply orb_true_iff in X. rewrite !N.eqb_eq in X.
    destruct X as [-> | ->]; discriminate E.
Qed.

Lemma single_char_score (c : N) :
  0 <= calculate_score (upper [c]) <= 7.
Proof.
  cbn [upper map]. rewrite calculate_score_single.
  destruct (_ || _); [lia|].
  destruct (decimal (upper_char c)) as [v|] eqn:D; [|lia].
  apply decimal_facts in D. lia.
Qed.

Lemma single_char_agrees (c : N) :
  decimal c = None \/ (49 <= c <= 57)%N ->
  calculate_score [c] = score_spec [c].
Proof.
  intros H. rewrite calculate_score_single. unfold score_spec, eqc. chr_norm.
  destruct ((c =? 88)%N || (c =? 120)%N) eqn:X; [reflexivity|].
  destruct H as [H | H].
  - rewrite H.
    destruct ((49 <=? c) && (c <=? 54))%N eqn:R; [|reflexivity].
    apply andb_true_iff in R. rewrite !N.leb_le in R.
    rewrite decimal_ascii in H by lia. discriminate H.
  - rewrite decimal_ascii by lia.
    destruct ((49 <=? c) && (c <=? 54))%N eqn:R; [reflexivity|].
    apply andb_false_iff in R. rewrite !N.leb_gt in R. lia.
Qed.

(** C2, as the code has it: the scoring function is total; the failure
    marker X or x gives 0; a token that [int] reads as the integer g gives
    max(0, 7 - g), so that 1..6 give 6..1, and the result does not increase
    when g grows; a token that is neither the marker nor an integer gives
    0; a token of one character is scored by its value if it is a decimal
    digit of any script, and on the characters that are no decimal digit,
    and on the digits 1 to 9, the function is the rule of the
    specification. *)
Theorem calculate_score_rule (token : str) :
  (upper token = lit "X" -> calculate_score token = 0) /\
  (forall g, python_int token = Some g ->
     calculate_score token = Z.max 0 (7 - g)) /\
  (forall token' g g', python_int token = Some g -> python_int token' = Some g' ->
     g <= g' -> calculate_score token' <= calculate_score token) /\
  (upper token <> lit "X" -> python_int token = None ->
     calculate_score token = 0) /\
  (forall c, token = [c] -> (49 <= c <= 54)%N ->
     calculate_score token = 7 - (Z.of_N c - 48)) /\
  (forall c v, token = [c] -> decimal c = Some v ->
     calculate_score token = Z.max 0 (7 - v)) /\
  (forall c, token = [c] -> decimal c = None \/ (49 <= c <= 57)%N ->
     calculate_score token = score_spec token) /\
  0 <= calculate_score token.
Proof.
  assert (Hint : forall t g, python_int t = Some g ->
                   calculate_score t = Z.max 0 (7 - g)).
  { intros t g Hg. unfold calculate_score.
    destruct (str_eqb (upper t) (lit "X")) eqn:E.
    - apply str_eqb_eq, upper_X_tokens in E.
      destruct E as [-> | ->]; vm_compute in Hg; discriminate.
    - rewrite Hg. reflexivity. }
  split; [|split; [|split; [|split; [|split; [|split; [|split]]]]]].
  - intros E. unfold calculate_score.
    rewrite (proj2 (str_eqb_eq _ _) E). reflexivity.
  - apply Hint.
  - intros t' g g' Hg Hg' Hle.
    rewrite (Hint _ _ Hg), (Hint _ _ Hg'). lia.
  - intros Hx Hn. unfold calculate_score.
    rewrite (proj2 (str_eqb_neq _ _) Hx), Hn. reflexivity.
  - intros c -> Hc. rewrite (Hint [c] (Z.of_N c - 48)); [lia|].
    rewrite python_int_single. apply decimal_ascii. lia.
  - intros c v -> Hv. apply Hint. rewrite python_int_single. exact Hv.
  - intros c -> Hc. apply single_char_agrees, Hc.
  - unfold calculate_score.
    destruct (str_eqb _ _); [lia|]. destruct (python_int token); lia.
Qed.

Lemma calculate_score_rule_witness :
  calculate_score (lit "x") = 0 /\
  calculate_score (lit "3") = Z.max 0 (7 - 3) /\
  calculate_score (lit "5") <= calculate_score (lit "2") /\
  calculate_score (lit "?") = 0 /\
  calculate_score (lit "4") = 7 - (Z.of_N (chr "4") - 48) /\
  calculate_score [1635%N] = Z.max 0 (7 - 3) /\
  calculate_score (lit "7") = score_spec (lit "7").
Proof.
  split; [|split; [|split; [|split; [|split; [|split]]]]].
  - apply (proj1 (calculate_score_rule (lit "x"))). reflexivity.
  - apply (proj1 (proj2 (calculate_score_rule (lit "3")))).
    vm_compute. reflexivity.
  - apply (proj1 (proj2 (proj2 (calculate_score_rule (lit "2"))))
             (lit "5") 2 5);
      [vm_compute; reflexivity | vm_compute; reflexivity | lia].
  - apply (proj1 (proj2 (proj2 (proj2 (calculate_score_rule (lit "?")))))).
    + discriminate.
    + vm_compute. reflexivity.
  - apply (proj1 (proj2 (proj2 (proj2 (proj2 (calculate_score_rule (lit "4"))))))
             (chr "4")); [reflexivity | vm_compute; split; discriminate].
  - apply (proj1 (proj2 (proj2 (proj2 (proj2 (proj2
             (calculate_score_rule [1635%N])))))) 1635%N 3);
      [reflexivity | vm_compute; reflexivity].
  - apply (proj1 (proj2 (proj2 (proj2 (proj2 (proj2 (proj2
             (calculate_score_rule (lit "7"))))))))
             (chr "7")); [reflexivity | right; vm_compute; split; discriminate].
Defined.

(** C2 as stated fails: the digit 0 is outside the guess counts 1..6 and is
    not the failure marker, and it scores 7, not 0. *)
Lemma score_of_zero_token :
  calculate_score (lit "0") = 7 /\ score_spec (lit "0") = 0 /\
  calculate_score (lit "0") <> score_spec (lit "0").
Proof. vm_compute. repeat split. discriminate. Qed.

(** ** The scan of [findall] *)

Section Scan.

Context {A : Type} (match_at : str -> option (A * str)).

Hypothesis shrinks : forall s a rest,
  match_at s = Some (a, rest) -> (List.length rest < List.length s)%nat.

(** Any fuel above the length of the text gives the same matches. *)
Lemma scan_fuel (n m : nat) (s : str) :
  (List.length s < n)%nat -> (List.length s < m)%nat ->
  scan match_at n s = scan match_at m s.
Proof.
  revert m s; induction n as [|n IH]; intros m s Hn Hm; [lia|].
  destruct m as [|m]; [lia|]. simpl.
  destruct (match_at s) as [[a rest]|] eqn:E.
  - apply shrinks in E. f_equal. apply IH; lia.
  - destruct s as [|c r]; [reflexivity|]. simpl in *. apply IH; lia.
Qed.

Lemma scan_unfold (s : str) :
  scan match_at (S (List.length s)) s =
  match match_at s with
  | Some (a, rest) => a :: scan match_at (S (List.length rest)) rest
  | None =>
      match s with
      | [] => []
      | _ :: r => scan match_at (S (List.length r)) r
      end
  end.
Proof.
  transitivity
    (match match_at s with
     | Some (a, rest) => a :: scan match_at (List.length s) rest
     | None =>
         match s with
         | [] => []
         | _ :: r => scan match_at (List.length s) r
         end
     end); [reflexivity|].
  destruct (match_at s) as [[a rest]|] eqn:E.
  - apply shrinks in E. f_equal. apply scan_fuel; lia.
  - destruct s as [|c r]; [reflexivity|]. apply scan_fuel; simpl; lia.
Qed.

End Scan.

Lemma scan_Forall {A : Type} (match_at : str -> option (A * str)) (P : A -> Prop) :
  (forall s a rest, match_at s = Some (a, rest) -> P a) ->
  forall n s, Forall P (scan match_at n s).
Proof.
  intros H n; induction n as [|n IH]; intros s; simpl; [constructor|].
  destruct (match_at s) as [[a rest]|] eqn:E.
  - constructor; [eapply H, E | apply IH].
  - destruct s; [constructor | apply IH].
Qed.

(** ** The score pattern *)

Lemma token_at_Some (s : str) (c : N) (r : str) :
  token_at s = Some (c, r) -> s = c :: lit "/6:" ++ r /\ is_score_char c = true.
Proof.
  destruct s as [|c0 [|a [|b [|d r0]]]]; simpl; try discriminate.
  destruct (is_score_char c0) eqn:Hc; simpl; [|discriminate].
  destruct (eqc a "/") eqn:Ha; simpl; [|discriminate].
  destruct (eqc b "6") eqn:Hb; simpl; [|discriminate].
  destruct (eqc d ":") eqn:Hd; simpl; [|discriminate].
  apply eqc_eq in Ha, Hb, Hd. subst. intros E. injection E as <- <-.
  split; [reflexivity | assumption].
Qed.

Lemma token_at_app (a b : str) (c : N) (r : str) :
  token_at a = Some (c, r) -> token_at (a ++ b) = Some (c, r ++ b).
Proof.
  intros E. destruct (token_at_Some _ _ _ E) as [-> Hc].
  simpl. rewrite Hc. reflexivity.
Qed.

Lemma token_at_not_score_char (c : N) (r : str) :
  is_score_char c = false -> token_at (c :: r) = None.
Proof.
  intros H. destruct r as [|a [|b [|d r]]]; simpl; try reflexivity.
  rewrite H. reflexivity.
Qed.

Lemma token_at_prefix_None (a b : str) :
  token_at (a ++ b) = None -> token_at a = None.
Proof.
  intros H. destruct (token_at a) as [[c r]|] eqn:E; [|reflexivity].
  rewrite (token_at_app _ b _ _ E) in H. discriminate.
Qed.

Lemma lookahead_None (s : str) : lookahead s = None -> token_at s = None.
Proof.
  unfold lookahead. destruct (token_at s) as [[c r]|]; [discriminate|reflexivity].
Qed.

Lemma count_tokens_cons_None (c : N) (r : str) :
  token_at (c :: r) = None -> count_tokens (c :: r) = count_tokens r.
Proof. intros H. cbn [count_tokens]. rewrite H. reflexivity. Qed.

Lemma lazy_segment_spec (s seg ahead rest : str) :
  lazy_segment s = (seg, ahead, rest) ->
  s = seg ++ rest /\ lookahead rest = Some ahead /\
  count_tokens seg = O /\ count_tokens s = count_tokens rest.
Proof.
  revert seg ahead rest; induction s as [|c r IH]; intros seg ahead rest.
  - simpl. intros E. injection E as <- <- <-. repeat split.
  - cbn [lazy_segment].
    destruct (lookahead (c :: r)) as [ah|] eqn:L.
    + intros E. injection E as <- <- <-. repeat split. assumption.
    + destruct (lazy_segment r) as [[seg' ahead'] rest'] eqn:E'.
      intros E. injection E as <- <- <-.
      destruct (IH _ _ _ eq_refl) as (-> & Hl & Hseg & Hcnt).
      apply lookahead_None in L.
      repeat split.
      * assumption.
      * rewrite count_tokens_cons_None; [assumption|].
        apply token_at_prefix_None with (b := rest'). exact L.
      * rewrite <- Hcnt. apply count_tokens_cons_None. exact L.
Qed.

Lemma count_tokens_spaces (ws r : str) :
  forallb is_space ws = true -> count_tokens (ws ++ r) = count_tokens r.
Proof.
  induction ws as [|c ws IH]; simpl app; [reflexivity|].
  cbn [forallb]. rewrite andb_true_iff. intros [Hc Hws].
  rewrite count_tokens_cons_None; [apply IH, Hws|].
  apply token_at_not_score_char, space_not_score_char, Hc.
Qed.

Lemma count_tokens_after_token (c : N) (r : str) :
  is_score_char c = true ->
  count_tokens (c :: lit "/6:" ++ r) = S (count_tokens r).
Proof.
  intros Hc.
  change (c :: lit "/6:" ++ r) with (c :: chr "/" :: chr "6" :: chr ":" :: r).
  cbn [count_tokens].
  replace (token_at (c :: chr "/" :: chr "6" :: chr ":" :: r))
    with (Some (c, r)) by (simpl; rewrite Hc; reflexivity).
  rewrite (token_at_not_score_char (chr "/")) by reflexivity.
  rewrite (token_at_not_score_char (chr ":")) by reflexivity.
  replace (token_at (chr "6" :: chr ":" :: r)) with (@None (N * str))
    by (destruct r as [|x [|y r]]; reflexivity).
  reflexivity.
Qed.

Lemma match_score_spec (s : str) (m : re_match) (rest : str) :
  match_score s = Some (m, rest) ->
  s = m_text m ++ rest /\
  is_score_char (m_token m) = true /\
  forallb is_space (m_ws m) = true /\
  count_tokens (m_seg m) = O /\
  lookahead rest = Some (m_ahead m) /\
  count_tokens s = S (count_tokens rest).
Proof.
  unfold match_score.
  destruct (token_at s) as [[c r]|] eqn:T; [|discriminate].
  destruct (span is_space r) as [ws r1] eqn:Sp.
  destruct (lazy_segment r1) as [[seg ahead] rest'] eqn:Lz.
  intros E. injection E as <- <-.
  destruct (token_at_Some _ _ _ T) as [-> Hc].
  destruct (span_app _ _ _ _ Sp) as [-> Hws].
  destruct (lazy_segment_spec _ _ _ _ Lz) as (-> & Hl & Hseg & Hcnt).
  unfold m_text. cbn [m_token m_ws m_seg m_ahead].
  repeat split; try assumption.
  - simpl. rewrite <- app_assoc. reflexivity.
  - rewrite count_tokens_after_token by assumption.
    rewrite count_tokens_spaces by assumption.
    rewrite Hcnt. reflexivity.
Qed.

Lemma match_score_None (s : str) :
  match_score s = None <-> token_at s = None.
Proof.
  unfold match_score. destruct (token_at s) as [[c r]|]; [|tauto].
  destruct (span is_space r) as [ws r1].
  destruct (lazy_segment r1) as [[seg ahead] rest].
  split; discriminate.
Qed.

Lemma match_score_shrinks (s : str) (m : re_match) (rest : str) :
  match_score s = Some (m, rest) -> (List.length rest < List.length s)%nat.
Proof.
  intros E. destruct (match_score_spec _ _ _ E) as (-> & _).
  unfold m_text. simpl. rewrite !length_app. lia.
Qed.

Lemma finditer_unfold (s : str) :
  finditer s =
  match match_score s with
  | Some (m, rest) => m :: finditer rest
  | None =>
      match s with
      | [] => []
      | _ :: r => finditer r
      end
  end.
Proof. apply scan_unfold, match_score_shrinks. Qed.

Lemma finditer_length_aux (n : nat) (s : str) :
  (List.length s < n)%nat -> List.length (finditer s) = count_tokens s.
Proof.
  revert s; induction n as [|n IH]; intros s Hn; [lia|].
  rewrite finditer_unfold.
  destruct (match_score s) as [[m rest]|] eqn:E.
  - pose proof (match_score_shrinks _ _ _ E) as Hlt.
    destruct (match_score_spec _ _ _ E) as (_ & _ & _ & _ & _ & Hcnt).
    simpl. rewrite IH by lia. symmetry. exact Hcnt.
  - apply match_score_None in E.
    destruct s as [|c r]; [reflexivity|].
    rewrite count_tokens_cons_None by assumption.
    apply IH. simpl in Hn. lia.
Qed.

Lemma finditer_length (s : str) : List.length (finditer s) = count_tokens s.
Proof. apply (finditer_length_aux (S (List.length s))). lia. Qed.

(** From a place where the lookahead holds, the matches follow one another
    with nothing between them, up to the end of the text. *)
Lemma finditer_chain (n : nat) (s : str) :
  (List.length s < n)%nat -> lookahead s <> None ->
  exists tail, s = List.concat (map m_text (finditer s)) ++ tail /\
               (tail = [] \/ tail = [chr "010"]).
Proof.
  revert s; induction n as [|n IH]; intros s Hn Hl; [lia|].
  rewrite finditer_unfold.
  destruct (match_score s) as [[m rest]|] eqn:E.
  - pose proof (match_score_shrinks _ _ _ E) as Hlt.
    destruct (match_score_spec _ _ _ E) as (Hs & _ & _ & _ & Hla & _).
    destruct (IH rest) as (tail & Hrest & Htail); [lia | congruence |].
    exists tail. split; [|assumption].
    cbn [map List.concat]. rewrite <- app_assoc, <- Hrest. exact Hs.
  - apply match_score_None in E. unfold lookahead in Hl. rewrite E in Hl.
    destruct s as [|c [|c' r]]; simpl in Hl; try congruence.
    + exists []. split; [reflexivity | left; reflexivity].
    + destruct (eqc c "010") eqn:Hc; [|congruence].
      apply eqc_eq in Hc. subst c.
      exists [chr "010"]. split; [reflexivity | right; reflexivity].
Qed.

Lemma finditer_layout_aux (n : nat) (s : str) :
  (List.length s < n)%nat ->
  exists pre tail,
    s = pre ++ List.concat (map m_text (finditer s)) ++ tail /\
    count_tokens pre = O /\ (tail = [] \/ tail = [chr "010"]).
Proof.
  revert s; induction n as [|n IH]; intros s Hn; [lia|].
  destruct (match_score s) as [[m rest]|] eqn:E.
  - destruct (finditer_chain (S (List.length s)) s) as (tail & Hs & Ht); [lia| |].
    + unfold lookahead. destruct (token_at s) as [[c r]|] eqn:T; [discriminate|].
      apply match_score_None in T. congruence.
    + exists [], tail. repeat split; assumption.
  - rewrite finditer_unfold, E. apply match_score_None in E.
    destruct s as [|c r].
    + exists [], []. repeat split. left; reflexivity.
    + destruct (IH r) as (pre & tail & Hr & Hpre & Ht); [simpl in Hn; lia|].
      exists (c :: pre), tail. repeat split; [| |assumption].
      * simpl. rewrite <- Hr. reflexivity.
      * rewrite count_tokens_cons_None; [assumption|].
        rewrite Hr in E. apply (token_at_prefix_None (c :: pre) _ E).
Qed.

Lemma finditer_tokens (s : str) :
  Forall (fun m => is_score_char (m_token m) = true /\
                   forallb is_space (m_ws m) = true /\
                   count_tokens (m_seg m) = O) (finditer s).
Proof.
  apply scan_Forall. intros s0 m rest E.
  destruct (match_score_spec _ _ _ E) as (_ & H1 & H2 & H3 & _).
  repeat split; assumption.
Qed.

(** ** The parser *)

Lemma findall_length (body : str) :
  List.length (findall body) = count_tokens body.
Proof. unfold findall. rewrite length_map. apply finditer_length. Qed.

Lemma existsb_find {A : Type} (f : A -> bool) (l : list A) :
  existsb f l = match find f l with Some _ => true | None => false end.
Proof.
  induction l as [|x r IH]; simpl; [reflexivity|].
  destruct (f x); [reflexivity | exact IH].
Qed.

Lemma token_class_score_char (c : N) : token_class c = is_score_char c.
Proof.
  unfold token_class, is_score_char, is_digit, decimal, eqc. chr_norm.
  change (fun z : N => ((z <=? c) && (c <? z + 10))%N) with (in_run c).
  rewrite existsb_find. destruct (find (in_run c) digit_zeros); reflexivity.
Qed.

Lemma token_occurrences_cons (c : N) (r : str) :
  token_occurrences (c :: r)
  = match token_at (c :: r) with
    | Some _ => [c] :: token_occurrences r
    | None => token_occurrences r
    end.
Proof.
  cbn [token_occurrences]. rewrite token_class_score_char.
  destruct r as [|a [|b [|d r']]]; cbn [starts_with token_at];
    rewrite ?andb_false_r; try reflexivity.
  unfold eqc. chr_norm.
  rewrite (N.eqb_sym 47 a), (N.eqb_sym 54 b), (N.eqb_sym 58 d), andb_true_r.
  rewrite !andb_assoc.
  destruct (is_score_char c && (a =? 47)%N && (b =? 54)%N && (d =? 58)%N);
    reflexivity.
Qed.

Lemma token_occurrences_length (s : str) :
  List.length (token_occurrences s) = count_tokens s.
Proof.
  induction s as [|c r IH]; [reflexivity|].
  rewrite token_occurrences_cons. cbn [count_tokens].
  destruct (token_at (c :: r)); simpl; rewrite IH; reflexivity.
Qed.

Lemma token_occurrences_suffix (a b : str) :
  exists x, token_occurrences (a ++ b) = x ++ token_occurrences b.
Proof.
  induction a as [|c a [x IH]]; [exists []; reflexivity|].
  change ((c :: a) ++ b) with (c :: (a ++ b)). rewrite token_occurrences_cons.
  destruct (token_at (c :: a ++ b)).
  - exists ([c] :: x). rewrite IH. reflexivity.
  - exists x. exact IH.
Qed.

Lemma token_occurrences_quiet (a b : str) :
  count_tokens (a ++ b) = count_tokens b ->
  token_occurrences (a ++ b) = token_occurrences b.
Proof.
  intros H. destruct (token_occurrences_suffix a b) as [x Hx].
  pose proof (token_occurrences_length (a ++ b)) as L.
  rewrite Hx, length_app, token_occurrences_length, H in L.
  destruct x; [exact Hx | simpl in L; lia].
Qed.

Lemma finditer_tokens_aux (n : nat) (s : str) :
  (List.length s < n)%nat ->
  map (fun m => [m_token m]) (finditer s) = token_occurrences s.
Proof.
  revert s; induction n as [|n IH]; intros s Hn; [lia|].
  rewrite finditer_unfold.
  destruct (match_score s) as [[m rest]|] eqn:E.
  - pose proof (match_score_shrinks _ _ _ E) as Hlt.
    destruct (match_score_spec _ _ _ E) as (Hs & Hc & _ & _ & _ & Hcnt).
    cbn [map]. rewrite IH by lia.
    rewrite Hs in Hcnt |- *. unfold m_text in *.
    change ((m_token m :: lit "/6:" ++ m_ws m ++ m_seg m) ++ rest)
      with (m_token m :: ((lit "/6:" ++ m_ws m ++ m_seg m) ++ rest)) in *.
    rewrite token_occurrences_cons.
    assert (T : token_at (m_token m :: (lit "/6:" ++ m_ws m ++ m_seg m) ++ rest)
                <> None).
    { rewrite <- Hs. intros T. apply match_score_None in T. congruence. }
    cbn [count_tokens] in Hcnt.
    destruct (token_at (m_token m :: (lit "/6:" ++ m_ws m ++ m_seg m) ++ rest));
      [|contradiction].
    rewrite token_occurrences_quiet; [reflexivity|]. lia.
  - apply match_score_None in E. destruct s as [|c r]; [reflexivity|].
    rewrite token_occurrences_cons, E. apply IH. simpl in Hn. lia.
Qed.

Lemma findall_tokens (body : str) :
  map (fun mt => fst (fst mt)) (findall body) = token_occurrences body.
Proof.
  unfold findall. rewrite map_map. cbn [groups fst].
  apply (finditer_tokens_aux (S (List.length body))). lia.
Qed.

Lemma token_occurrences_here (pre : str) (c : N) (post : str) :
  token_class c = true ->
  In [c] (token_occurrences (pre ++ c :: lit "/6:" ++ post)).
Proof.
  intros Hc. induction pre as [|x pre IH].
  - change ([] ++ c :: lit "/6:" ++ post)
      with (c :: 47%N :: 54%N :: 58%N :: post).
    cbn [token_occurrences starts_with]. rewrite Hc.
    cbn. left. reflexivity.
  - change ((x :: pre) ++ c :: lit "/6:" ++ post)
      with (x :: (pre ++ c :: lit "/6:" ++ post)).
    rewrite token_occurrences_cons.
    destruct (token_at _); [right|]; exact IH.
Qed.

Example scenario_A_parsed :
  parsed_results (lit "1/6: <@!111> 2/6: <@!222> <@!333>")
  = [(lit "1", [lit "111"]); (lit "2", [lit "222"; lit "333"])].
Proof. reflexivity. Qed.

Example adjacent_tokens :
  findall (lit "x/6:  16/6:0/6:") = [(lit "x", lit "1", lit "6");
                                      (lit "6", [], lit "0");
                                      (lit "0", [], [])].
Proof. reflexivity. Qed.

Example final_line_feed :
  findall (lit "3/6: <@7>" ++ [chr "010"]) = [(lit "3", lit "<@7>", [])].
Proof. reflexivity. Qed.

(** C3: a text with K occurrences of the score token gives exactly K
    parsed results; the text is an unmatched prefix, then the K matches one
    after the other, then nothing or a final line feed; each match is its
    token, whitespace and its segment, the segment holds no score token,
    and the references of a result are the mentions found in the segment of
    its own match, so none comes from the text of another segment. *)
Theorem parser_segments (body : str) :
  List.length (parsed_results body) = count_tokens body /\
  parsed_results body
  = map (fun m => (upper [m_token m], find_mentions (m_seg m))) (finditer body) /\
  Forall (fun m => m_text m = m_token m :: lit "/6:" ++ m_ws m ++ m_seg m /\
                   forallb is_space (m_ws m) = true /\
                   count_tokens (m_seg m) = O) (finditer body) /\
  exists pre tail,
    body = pre ++ List.concat (map m_text (finditer body)) ++ tail /\
    count_tokens pre = O /\ (tail = [] \/ tail = [chr "010"]).
Proof.
  repeat split.
  - unfold parsed_results. rewrite length_map. apply findall_length.
  - unfold parsed_results, findall. rewrite map_map. reflexivity.
  - eapply Forall_impl; [|apply finditer_tokens].
    intros m (_ & Hws & Hseg). repeat split; assumption.
  - apply (finditer_layout_aux (S (List.length body))). lia.
Qed.

(** C4, as the code has it: the score tokens of the parsed results are
    exactly, and in the order of the text, the characters that stand before
    [/6:] and are a decimal digit, 0..9 or one of another script, or the
    letter X in either case; so every result has such a token, and every
    such character before [/6:], the digits 0, 7, 8 and 9 among them, gives
    a result. *)
Theorem findall_score_tokens (body : str) :
  map (fun mt => fst (fst mt)) (findall body) = token_occurrences body /\
  Forall (fun mt => exists c, fst (fst mt) = [c] /\
                    (decimal c <> None \/ c = chr "X" \/ c = chr "x"))
         (findall body) /\
  (forall pre c post,
     In c (lit "0123456789Xx") \/ decimal c <> None ->
     In [c] (map (fun mt => fst (fst mt))
               (findall (pre ++ c :: lit "/6:" ++ post)))) /\
  List.length (findall body) = count_tokens body.
Proof.
  split; [apply findall_tokens|]. split; [|split; [|apply findall_length]].
  - unfold findall. apply Forall_map.
    eapply Forall_impl; [|apply finditer_tokens].
    intros m (Hc & _). exists (m_token m). split; [reflexivity|].
    unfold is_score_char in Hc. rewrite !orb_true_iff, !eqc_eq in Hc.
    destruct Hc as [[Hc | Hc] | Hc]; [left | right; left | right; right];
      try exact Hc.
    apply is_digit_decimal in Hc. destruct Hc as [v Hv]. congruence.
  - intros pre c post Hc. rewrite findall_tokens.
    apply token_occurrences_here. destruct Hc as [Hc | Hc].
    + simpl in Hc.
      repeat (destruct Hc as [<- | Hc]; [vm_compute; reflexivity|]).
      contradiction.
    + rewrite token_class_score_char. unfold is_score_char, is_digit.
      destruct (decimal c); [reflexivity | contradiction].
Qed.

Lemma findall_score_tokens_witness :
  In (lit "0")
     (map (fun mt => fst (fst mt))
        (findall (lit "results " ++ chr "0" :: lit "/6:" ++ lit " <@!111>"))) /\
  In [1635%N]
     (map (fun mt => fst (fst mt))
        (findall ([] ++ 1635%N :: lit "/6:" ++ lit " <@!111>"))).
Proof.
  split.
  - apply (proj1 (proj2 (proj2 (findall_score_tokens [])))
             (lit "results ") (chr "0") (lit " <@!111>")).
    left. vm_compute. tauto.
  - apply (proj1 (proj2 (proj2 (findall_score_tokens [])))
             [] 1635%N (lit " <@!111>")).
    right. vm_compute. discriminate.
Defined.

(** C4 as stated fails: the tokens 0 and 9 are parsed. *)
Lemma zero_and_nine_are_parsed :
  ~ Forall (fun mt => spec_token (fst (fst mt)) = true)
           (findall (lit "0/6: <@!111>")) /\
  ~ Forall (fun mt => spec_token (fst (fst mt)) = true)
           (findall (lit "9/6: <@!111>")).
Proof.
  split; vm_compute; intros H; inversion H as [|? ? Hd]; discriminate Hd.
Qed.

(** ** Messages that log nothing *)

Lemma findall_nil (body : str) : count_tokens body = O -> findall body = [].
Proof.
  intros H. apply length_zero_iff_nil. rewrite findall_length. exact H.
Qed.

(** C7: a message of another author, or one whose normalized body holds no
    score token, returns [False] and leaves the leaderboard as it was. *)
Theorem ingestion_rejects (fetch_user : Z -> fetch_outcome) (msg : message)
    (d : leaderboard) :
  author_id msg <> WORDLE_BOT_ID \/ count_tokens (normalize (content msg)) = O ->
  process_wordle_message fetch_user msg d = (false, d).
Proof.
  intros H. unfold process_wordle_message.
  destruct (author_id msg =? WORDLE_BOT_ID) eqn:A; simpl; [|reflexivity].
  destruct H as [H | H].
  - apply Z.eqb_eq in A. contradiction.
  - destruct (content msg); [reflexivity|].
    rewrite (findall_nil _ H). reflexivity.
Qed.

Lemma ingestion_rejects_witness :
  let other := {| msg_id := 1; author_id := 42;
                  content := lit "1/6: <@!111>" |} in
  let chatter := {| msg_id := 2; author_id := WORDLE_BOT_ID;
                    content := lit "**Good luck** everyone 6/7" |} in
  process_wordle_message (fun _ => NotFound) other [] = (false, []) /\
  process_wordle_message (fun _ => NotFound) chatter [] = (false, []).
Proof.
  split.
  - apply (ingestion_rejects (fun _ => NotFound)
             {| msg_id := 1; author_id := 42; content := lit "1/6: <@!111>" |} []).
    left. discriminate.
  - apply (ingestion_rejects (fun _ => NotFound)
             {| msg_id := 2; author_id := WORDLE_BOT_ID;
                content := lit "**Good luck** everyone 6/7" |} []).
    right. reflexivity.
Defined.

(** ** The leaderboard as a dictionary *)

Lemma lookup_store (k k' : str) (v : player) (d : leaderboard) :
  lookup k (store k' v d) = if str_eqb k k' then Some v else lookup k d.
Proof.
  induction d as [|[k0 v0] r IH]; simpl; [reflexivity|].
  split_key k' k0; simpl.
  - subst k0. destruct (str_eqb k k'); reflexivity.
  - rewrite IH. split_key k k0; [|reflexivity].
    subst k0. rewrite (proj2 (str_eqb_neq _ _)); [reflexivity|].
    intros ->. contradiction.
Qed.

Lemma lookup_adjust (k k' : str) (f : player -> player) (d : leaderboard) :
  lookup k (adjust k' f d)
  = if str_eqb k k' then option_map f (lookup k d) else lookup k d.
Proof.
  induction d as [|[k0 v0] r IH]; simpl.
  - destruct (str_eqb k k'); reflexivity.
  - split_key k' k0; simpl.
    + subst k0. destruct (str_eqb k k'); reflexivity.
    + rewrite IH. split_key k k0; [|reflexivity].
      subst k0. rewrite (proj2 (str_eqb_neq _ _)); [reflexivity|].
      intros ->. contradiction.
Qed.

Lemma adjust_adjust (k : str) (f g : player -> player) (d : leaderboard) :
  adjust k f (adjust k g d) = adjust k (fun p => f (g p)) d.
Proof.
  induction d as [|[k0 v0] r IH]; simpl; [reflexivity|].
  destruct (str_eqb k k0) eqn:E; simpl; rewrite E; [reflexivity|].
  rewrite IH. reflexivity.
Qed.

Lemma Forall_store (P : str * player -> Prop) (k : str) (v : player)
    (d : leaderboard) :
  (forall k', P (k', v)) -> Forall P d -> Forall P (store k v d).
Proof.
  intros Hv. induction 1 as [|[k0 v0] r H0 Hr IH]; simpl.
  - constructor; [apply Hv | constructor].
  - destruct (str_eqb k k0); constructor; auto.
Qed.

Lemma Forall_adjust (P : str * player -> Prop) (k : str)
    (f : player -> player) (d : leaderboard) :
  (forall k' v, P (k', v) -> P (k', f v)) -> Forall P d -> Forall P (adjust k f d).
Proof.
  intros Hf. induction 1 as [|[k0 v0] r H0 Hr IH]; simpl.
  - constructor.
  - destruct (str_eqb k k0); constructor; auto.
Qed.

Section IngestionFacts.

Variable fetch_user : Z -> fetch_outcome.

(** One mention: the record of the user, created at 0/0 if it is new, gets
    the points and one game; the other records stay. *)
Lemma log_mention_data (points : Z) (d : leaderboard) (n : Z) (user_id : str) :
  log_mention fetch_user points (d, n) user_id
  = (adjust user_id (bump (resolve_username fetch_user user_id) points)
       match lookup user_id d with
       | None => store user_id
                   {| username := resolve_username fetch_user user_id;
                      total_score := 0; games_played := 0 |} d
       | Some _ => d
       end,
     n + 1).
Proof.
  unfold log_mention. rewrite !adjust_adjust. reflexivity.
Qed.

Lemma log_mention_totals (points : Z) (d : leaderboard) (n : Z) (user_id k : str) :
  games_of (fst (log_mention fetch_user points (d, n) user_id)) k
  = games_of d k + (if str_eqb k user_id then 1 else 0) /\
  score_of (fst (log_mention fetch_user points (d, n) user_id)) k
  = score_of d k + points * (if str_eqb k user_id then 1 else 0).
Proof.
  rewrite log_mention_data. unfold games_of, score_of. cbn [fst].
  rewrite lookup_adjust.
  split_key k user_id.
  - subst k. destruct (lookup user_id d) as [p|] eqn:L.
    + rewrite L. simpl. split; lia.
    + rewrite lookup_store, str_eqb_refl. simpl. split; lia.
  - destruct (lookup user_id d) as [p|] eqn:L.
    + split; destruct (lookup k d); lia.
    + rewrite lookup_store. rewrite (proj2 (str_eqb_neq _ _) E).
      split; destruct (lookup k d); lia.
Qed.

Lemma fold_log_mention_totals (points : Z) (ids : list str) (d : leaderboard)
    (n : Z) (k : str) :
  games_of (fst (fold_left (log_mention fetch_user points) ids (d, n))) k
  = games_of d k + count_key k ids /\
  score_of (fst (fold_left (log_mention fetch_user points) ids (d, n))) k
  = score_of d k + points * count_key k ids.
Proof.
  revert d n; induction ids as [|id r IH]; intros d n; cbn [fold_left count_key fst].
  - split; lia.
  - destruct (log_mention fetch_user points (d, n) id) as [d' n'] eqn:E.
    destruct (IH d' n') as [Hg Hs]. rewrite Hg, Hs.
    destruct (log_mention_totals points d n id k) as [Hg' Hs'].
    rewrite E in Hg', Hs'. cbn [fst] in Hg', Hs'. rewrite Hg', Hs'.
    split; lia.
Qed.

Lemma fold_log_match_totals (mts : list (str * str * str)) (d : leaderboard)
    (n : Z) (k : str) :
  games_of (fst (fold_left (log_match fetch_user) mts (d, n))) k
  = games_of d k + gained_games k mts /\
  score_of (fst (fold_left (log_match fetch_user) mts (d, n))) k
  = score_of d k + gained_score k mts.
Proof.
  revert d n; induction mts as [|[[g1 g2] g3] r IH]; intros d n;
    cbn [fold_left gained_games gained_score fst].
  - split; lia.
  - unfold log_match at 2 4.
    destruct (fold_left (log_mention fetch_user (calculate_score (upper g1)))
                (find_mentions g2) (d, n)) as [d' n'] eqn:E.
    destruct (IH d' n') as [Hg Hs]. rewrite Hg, Hs.
    destruct (fold_log_mention_totals (calculate_score (upper g1))
                (find_mentions g2) d n k) as [Hg' Hs'].
    rewrite E in Hg', Hs'. cbn [fst] in Hg', Hs'. rewrite Hg', Hs'.
    split; lia.
Qed.

(** What a message adds to a player does not depend on the leaderboard. *)
Lemma process_totals (msg : message) (d : leaderboard) (k : str) :
  games_of (snd (process_wordle_message fetch_user msg d)) k
  = games_of d k + gained_games k (message_matches msg) /\
  score_of (snd (process_wordle_message fetch_user msg d)) k
  = score_of d k + gained_score k (message_matches msg).
Proof.
  unfold process_wordle_message, message_matches.
  destruct (author_id msg =? WORDLE_BOT_ID); simpl; [|split; lia].
  destruct (content msg) as [|c0 body0] eqn:C; [simpl; split; lia|].
  destruct (findall (normalize (c0 :: body0))) as [|mt mts] eqn:F;
    [simpl; split; lia|].
  destruct (fold_left (log_match fetch_user) (mt :: mts) (d, 0)) as [d' n'] eqn:E.
  pose proof (fold_log_match_totals (mt :: mts) d 0 k) as H.
  rewrite E in H. exact H.
Qed.

End IngestionFacts.

(** C5: ingesting a message twice in a row raises the games and the score
    of every player by twice what one ingestion raises them by, whatever
    the names the two runs resolve. *)
Theorem double_ingestion (fetch1 fetch2 : Z -> fetch_outcome) (msg : message)
    (d : leaderboard) (k : str) :
  let d1 := snd (process_wordle_message fetch1 msg d) in
  let d2 := snd (process_wordle_message fetch2 msg d1) in
  games_of d2 k - games_of d k = 2 * (games_of d1 k - games_of d k) /\
  score_of d2 k - score_of d k = 2 * (score_of d1 k - score_of d k).
Proof.
  intros d1 d2. subst d1 d2.
  destruct (process_totals fetch2 msg
              (snd (process_wordle_message fetch1 msg d)) k) as [G2 S2].
  destruct (process_totals fetch1 msg d k) as [G1 S1].
  rewrite G2, S2, G1, S1. split; lia.
Qed.

Example scenario_A_twice :
  let d1 := snd (process_wordle_message Sample.names Sample.scenario_A []) in
  let d2 := snd (process_wordle_message Sample.names Sample.scenario_A d1) in
  (games_of d1 (lit "111"), score_of d1 (lit "111")) = (1, 6) /\
  (games_of d2 (lit "111"), score_of d2 (lit "111")) = (2, 12) /\
  (games_of d1 (lit "333"), score_of d1 (lit "333")) = (1, 5) /\
  (games_of d2 (lit "333"), score_of d2 (lit "333")) = (2, 10).
Proof. vm_compute. repeat split. Qed.

(** ** The bound on the scores *)

Section IngestionInvariant.

Variable fetch_user : Z -> fetch_outcome.

(** A property of leaderboards that every mention of a token worth 0..7
    points keeps is kept by the ingestion of a message. *)
Variable Inv : leaderboard -> Prop.

Hypothesis mention_keeps : forall points d n user_id,
  0 <= points <= 7 -> Inv d ->
  Inv (fst (log_mention fetch_user points (d, n) user_id)).

Lemma fold_log_mention_keeps (points : Z) (ids : list str)
    (d : leaderboard) (n : Z) :
  0 <= points <= 7 -> Inv d ->
  Inv (fst (fold_left (log_mention fetch_user points) ids (d, n))).
Proof.
  intros Hp. revert d n; induction ids as [|id r IH]; intros d n Hd;
    cbn [fold_left]; [exact Hd|].
  pose proof (mention_keeps points d n id Hp Hd) as H.
  destruct (log_mention fetch_user points (d, n) id) as [d' n'].
  apply IH, H.
Qed.

Lemma fold_log_match_keeps (mts : list (str * str * str))
    (d : leaderboard) (n : Z) :
  Forall (fun mt => exists c, fst (fst mt) = [c]) mts -> Inv d ->
  Inv (fst (fold_left (log_match fetch_user) mts (d, n))).
Proof.
  intros Hm. revert d n; induction Hm as [|[[g1 g2] g3] r [c Hc] Hr IH];
    intros d n Hd; cbn [fold_left]; [exact Hd|].
  simpl in Hc. subst g1. unfold log_match at 2.
  pose proof (fold_log_mention_keeps (calculate_score (upper [c]))
                (find_mentions g2) d n (single_char_score c) Hd) as H.
  destruct (fold_left (log_mention fetch_user (calculate_score (upper [c])))
              (find_mentions g2) (d, n)) as [d' n'].
  apply IH, H.
Qed.

Lemma findall_single_char (body : str) :
  Forall (fun mt => exists c, fst (fst mt) = [c]) (findall body).
Proof.
  unfold findall. apply Forall_map, Forall_forall.
  intros m _. exists (m_token m). reflexivity.
Qed.

Lemma process_keeps (msg : message) (d : leaderboard) :
  Inv d -> Inv (snd (process_wordle_message fetch_user msg d)).
Proof.
  intros Hd. unfold process_wordle_message.
  destruct (author_id msg =? WORDLE_BOT_ID); simpl; [|exact Hd].
  destruct (content msg) as [|c0 body0]; [exact Hd|].
  pose proof (findall_single_char (normalize (c0 :: body0))) as Hm.
  destruct (findall (normalize (c0 :: body0))) as [|mt mts]; [exact Hd|].
  pose proof (fold_log_match_keeps (mt :: mts) d 0 Hm Hd) as H.
  destruct (fold_left (log_match fetch_user) (mt :: mts) (d, 0)) as [d' n'].
  exact H.
Qed.

End IngestionInvariant.

Lemma log_mention_well_scored (fetch_user : Z -> fetch_outcome) (points : Z)
    (d : leaderboard) (n : Z) (user_id : str) :
  0 <= points <= 7 -> well_scored d ->
  well_scored (fst (log_mention fetch_user points (d, n) user_id)).
Proof.
  intros Hp Hd. rewrite log_mention_data. cbn [fst]. unfold well_scored.
  apply Forall_adjust.
  - intros k' v. unfold bump, set_username, add_game, add_score.
    cbn [snd total_score games_played]. lia.
  - destruct (lookup user_id d); [exact Hd|].
    apply Forall_store; [|exact Hd]. intros k'.
    cbn [snd total_score games_played]. lia.
Qed.

Lemma process_well_scored (fetch_user : Z -> fetch_outcome) (msg : message)
    (d : leaderboard) :
  well_scored d -> well_scored (snd (process_wordle_message fetch_user msg d)).
Proof.
  apply process_keeps. intros points d0 n user_id.
  apply log_mention_well_scored.
Qed.

Lemma reachable_well_scored (d : leaderboard) : reachable d -> well_scored d.
Proof.
  induction 1 as [|f msg d _ IH]; [constructor | apply process_well_scored, IH].
Qed.

(** A new key goes to the end of the dictionary. *)
Lemma store_fresh (k : str) (v : player) (d : leaderboard) :
  lookup k d = None -> store k v d = d ++ [(k, v)].
Proof.
  induction d as [|[k0 v0] r IH]; simpl; [reflexivity|].
  destruct (str_eqb k k0); [discriminate|]. intros H. rewrite IH by exact H.
  reflexivity.
Qed.





(** C10: an ingestion keeps every record within
    0 <= total_score <= 7 * games_played, and every leaderboard built from
    the empty one by ingestions is within these bounds: a one-character
    token scores between 0 and 7, and a mention adds the score of its token
    and one game to the record of the user. *)
Theorem ingestion_keeps_score_bounds (fetch_user : Z -> fetch_outcome)
    (msg : message) (d : leaderboard) :
  (well_scored d ->
   well_scored (snd (process_wordle_message fetch_user msg d))) /\
  (reachable d -> well_scored d) /\
  (forall c, 0 <= calculate_score (upper [c]) <= 7) /\
  (forall points n user_id,
     let d' := fst (log_mention fetch_user points (d, n) user_id) in
     games_of d' user_id = games_of d user_id + 1 /\
     score_of d' user_id = score_of d user_id + points).
Proof.
  split; [apply process_well_scored|].
  split; [apply reachable_well_scored|].
  split; [apply single_char_score|].
  intros points n user_id d'. subst d'.
  destruct (log_mention_totals fetch_user points d n user_id user_id) as [G S].
  rewrite G, S, str_eqb_refl. split; lia.
Qed.

Lemma ingestion_keeps_score_bounds_witness :
  well_scored Sample.tie_board /\
  well_scored (snd (process_wordle_message Sample.names Sample.scenario_A
                      Sample.tie_board)).
Proof.
  split.
  - apply (proj1 (proj2 (ingestion_keeps_score_bounds Sample.names
                           Sample.scenario_A Sample.tie_board))).
    unfold Sample.tie_board. apply reach_ingest, reach_ingest, reach_empty.
  - apply (proj1 (ingestion_keeps_score_bounds Sample.names Sample.scenario_A
                    Sample.tie_board)).
    vm_compute. repeat constructor; discriminate.
Defined.

(** ** Backfill *)

Lemma backfill_scan (fetch_user : Z -> fetch_outcome) (command_id : Z)
    (msgs : list message) (st : leaderboard * Z) :
  fold_left (backfill_step fetch_user command_id) msgs st
  = ingest_all fetch_user
      (filter (fun m => negb (msg_id m =? command_id) && is_wordle_result m) msgs)
      st.
Proof.
  unfold ingest_all.
  revert st; induction msgs as [|m r IH]; intros [d n]; cbn [fold_left filter];
    [reflexivity|].
  unfold backfill_step at 2.
  destruct (msg_id m =? command_id); cbn [negb andb]; [apply IH|].
  destruct (is_wordle_result m); [|apply IH].
  cbn [fold_left fst snd]. rewrite IH. reflexivity.
Qed.

Lemma is_wordle_result_reading (msg : message) :
  is_wordle_result msg
  = (author_id msg =? 1211781489931452447)
    && contains (lit "yesterday's results") (lower (strip (content msg))).
Proof.
  unfold is_wordle_result, KEYWORD_PHRASE, WORDLE_BOT_ID.
  change (lower (lit "yesterday's results")) with (lit "yesterday's results").
  apply andb_comm.
Qed.

(** C8: the scan ingests, in order and into one snapshot, exactly the
    messages of the window, the command that started the scan apart, whose
    author is the source bot 1211781489931452447 and whose text, stripped
    and lowered, holds the phrase "yesterday's results"; as that command is
    not a post of the source bot, these are all such messages of the
    window.  It saves at most once, the snapshot it has after the scan, and
    only if a message logged a score. *)
Theorem backfill_ingests_eligible (fetch_user : Z -> fetch_outcome)
    (loaded : leaderboard) (command_id : Z) (history : list message)
    (limit : nat) :
  let run := backfill_wordle_leaderboard fetch_user loaded command_id history limit in
  let scanned := firstn limit history in
  let eligible := fun m : message =>
    (author_id m =? 1211781489931452447)
    && contains (lit "yesterday's results") (lower (strip (content m))) in
  (bf_data run, bf_logged run)
  = ingest_all fetch_user
      (filter eligible
         (filter (fun m => negb (msg_id m =? command_id)) scanned))
      (loaded, 0) /\
  ((forall m, In m scanned -> msg_id m = command_id ->
              author_id m <> 1211781489931452447) ->
   (bf_data run, bf_logged run)
   = ingest_all fetch_user (filter eligible scanned) (loaded, 0)) /\
  bf_saves run = (if 0 <? bf_logged run then [bf_data run] else []) /\
  (List.length (bf_saves run) <= 1)%nat.
Proof.
  intros run scanned eligible. subst run scanned.
  unfold backfill_wordle_leaderboard. rewrite backfill_scan.
  set (window := firstn limit history).
  assert (Hskip :
    filter (fun m => negb (msg_id m =? command_id) && is_wordle_result m) window
    = filter eligible
        (filter (fun m => negb (msg_id m =? command_id)) window)).
  { induction window as [|m r IH]; simpl; [reflexivity|].
    destruct (msg_id m =? command_id); simpl; [exact IH|].
    rewrite is_wordle_result_reading. fold (eligible m).
    destruct (eligible m); rewrite IH; reflexivity. }
  assert (Hall :
    (forall m, In m window -> msg_id m = command_id ->
               author_id m <> 1211781489931452447) ->
    filter (fun m => negb (msg_id m =? command_id) && is_wordle_result m) window
    = filter eligible window).
  { intros Hcmd. apply filter_ext_in. intros m Hin.
    rewrite is_wordle_result_reading. fold (eligible m).
    destruct (msg_id m =? command_id) eqn:E; [|reflexivity].
    apply Z.eqb_eq in E. specialize (Hcmd m Hin E).
    unfold eligible. rewrite (proj2 (Z.eqb_neq _ _) Hcmd). reflexivity. }
  split; [|split].
  - rewrite <- Hskip.
    destruct (ingest_all fetch_user _ (loaded, 0)) as [d n]. reflexivity.
  - intros Hcmd. rewrite <- (Hall Hcmd).
    destruct (ingest_all fetch_user _ (loaded, 0)) as [d n]. reflexivity.
  - destruct (ingest_all fetch_user _ (loaded, 0)) as [d n].
    cbn [bf_data bf_logged bf_saves]. split; [reflexivity|].
    destruct (0 <? n); simpl; lia.
Qed.

Lemma backfill_ingests_eligible_witness :
  let run := backfill_wordle_leaderboard Sample.names [] 99 Sample.window 5000 in
  (bf_data run, bf_logged run)
  = ingest_all Sample.names
      (filter (fun m : message =>
                 (author_id m =? 1211781489931452447)
                 && contains (lit "yesterday's results")
                      (lower (strip (content m))))
         (firstn 5000 Sample.window)) ([], 0).
Proof.
  pose proof (backfill_ingests_eligible Sample.names [] 99 Sample.window 5000)
    as H.
  destruct H as (_ & H & _). apply H.
  intros m Hin Hid. simpl in Hin.
  repeat (destruct Hin as [<- | Hin]; [try discriminate Hid; discriminate|]).
  contradiction.
Defined.

Example scenario_C :
  let run := backfill_wordle_leaderboard Sample.names [] 99 Sample.window 5000 in
  List.length (filter is_wordle_result Sample.window) = 3%nat /\
  bf_logged run = 3 /\
  bf_saves run = [bf_data run] /\
  map (fun item => (fst item, total_score (snd item), games_played (snd item)))
      (bf_data run)
  = [(lit "111", 4 + 0 + 1, 3); (lit "222", 5 + 1, 2)].
Proof. vm_compute. repeat split. Qed.

(** ** Loading *)

(** The absent file, the file that goes missing before it is opened and
    the content that the JSON decoder rejects give the empty mapping. *)
Lemma load_absent_or_undecodable (fs : storage) :
  file_exists fs = false \/
  read_json fs = Raised FileNotFoundError \/
  read_json fs = Raised JSONDecodeError ->
  load_leaderboard fs = Returned [].
Proof.
  unfold load_leaderboard. intros [H | [H | H]]; rewrite H.
  - reflexivity.
  - destruct (file_exists fs); reflexivity.
  - destruct (file_exists fs); reflexivity.
Qed.

Lemma load_absent_or_undecodable_witness :
  load_leaderboard {| file_exists := false; read_json := Raised FileNotFoundError |}
  = Returned [] /\
  load_leaderboard {| file_exists := true; read_json := Raised JSONDecodeError |}
  = Returned [].
Proof.
  split.
  - apply (load_absent_or_undecodable
             {| file_exists := false; read_json := Raised FileNotFoundError |}).
    left. reflexivity.
  - apply (load_absent_or_undecodable
             {| file_exists := true; read_json := Raised JSONDecodeError |}).
    right. right. reflexivity.
Defined.

(** C9 on the code: a file whose bytes are no text in the encoding of the
    reader is corrupt, and [json.load] raises [UnicodeDecodeError] on it
    before it decodes anything; the handler names only
    [FileNotFoundError] and [JSONDecodeError], so loading does not return
    the empty mapping: it raises, as it does for a file that cannot be
    read. *)
Theorem load_raises_on_undecodable_bytes :
  let corrupt := {| file_exists := true; read_json := Raised UnicodeDecodeError |} in
  let locked := {| file_exists := true; read_json := Raised PermissionError |} in
  load_leaderboard corrupt = Raised UnicodeDecodeError /\
  load_leaderboard corrupt <> Returned [] /\
  load_leaderboard locked = Raised PermissionError /\
  load_leaderboard {| file_exists := true; read_json := Raised JSONDecodeError |}
  = Returned [] /\
  load_leaderboard {| file_exists := false; read_json := Raised FileNotFoundError |}
  = Returned [].
Proof. repeat split. discriminate. Qed.

(** ** Ranking *)












Example huge_score_raises :
  display_wordle_leaderboard Sample.huge_board = Crashed OverflowError.
Proof. vm_compute. reflexivity. Qed.


Lemma Qltb_asym (a b : Q) : Qltb a b = true -> Qltb b a = false.
Proof.
  unfold Qltb. rewrite <- (Qcompare_antisym a b).
  destruct (a ?= b)%Q; simpl; congruence.
Qed.

Lemma key_lt_asym (a b : Z * Q) : key_lt a b = true -> key_lt b a = false.
Proof.
  unfold key_lt. rewrite (Z.eqb_sym (fst b) (fst a)).
  destruct (fst a =? fst b); [apply Qltb_asym|].
  rewrite !Z.ltb_lt, Z.ltb_nlt. lia.
Qed.

Lemma insert_desc_sorted (x : str * player) (l : leaderboard) :
  Sorted not_below l -> Sorted not_below (insert_desc x l).
Proof.
  induction 1 as [|y r Hr IH Hy]; simpl; [repeat constructor|].
  destruct (key_lt (sort_key x) (sort_key y)) eqn:E.
  - constructor; [exact IH|].
    destruct r as [|z r']; simpl.
    + constructor. apply key_lt_asym, E.
    + destruct (key_lt (sort_key x) (sort_key z)).
      * inversion Hy; subst. constructor. assumption.
      * constructor. apply key_lt_asym, E.
  - constructor; [constructor; assumption|]. constructor. exact E.
Qed.

(** What the sort does: no record is followed by one with a larger key. *)
Lemma sorted_board_sorted (d : leaderboard) : Sorted not_below (sorted_board d).
Proof.
  induction d as [|x r IH]; simpl; [constructor | apply insert_desc_sorted, IH].
Qed.

(** Between neighbours of the ranking the total score does not grow, and
    with equal total scores the average of guesses does not grow either:
    the larger average comes first. *)
Lemma not_below_reading (x y : str * player) :
  not_below x y ->
  total_score (snd y) <= total_score (snd x) /\
  (total_score (snd x) = total_score (snd y) ->
   (average_guesses (snd y) <= average_guesses (snd x))%Q).
Proof.
  unfold not_below, key_lt, sort_key. cbn [fst snd]. intros H.
  destruct (total_score (snd x) =? total_score (snd y)) eqn:E.
  - apply Z.eqb_eq in E. split; [lia|]. intros _.
    unfold Qltb in H. rewrite Qle_alt, <- Qcompare_antisym.
    destruct (average_guesses (snd x) ?= average_guesses (snd y))%Q;
      simpl; congruence.
  - apply Z.eqb_neq in E. apply Z.ltb_nlt in H. split; [lia|]. intros E'.
    contradiction.
Qed.

(** C1 on the code: after 111 has solved once in one guess and 222 twice
    in four guesses, both have 6 points; 111 has the lower average of
    guesses (1 against 4) and was stored first, and the ranking puts 222
    first. *)
Theorem tie_ranks_higher_average_first :
  map (fun item => (fst item, total_score (snd item), games_played (snd item)))
      Sample.tie_board
  = [(lit "111", 6, 1); (lit "222", 6, 2)] /\
  match lookup (lit "111") Sample.tie_board, lookup (lit "222") Sample.tie_board with
  | Some a, Some b =>
      total_score a = total_score b /\
      (average_guesses a == 1)%Q /\ (average_guesses b == 4)%Q /\
      (average_guesses a < average_guesses b)%Q
  | _, _ => False
  end /\
  map fst (sorted_board Sample.tie_board) = [lit "222"; lit "111"] /\
  map fst (sorted_board (rev Sample.tie_board)) = [lit "222"; lit "111"].
Proof. vm_compute. repeat split. Qed.

(** * Further properties of the code *)

(** ** Mentions *)

Lemma digit_not_sign (c : N) :
  is_digit c = true -> eqc c "-" = false /\ eqc c "+" = false.
Proof.
  intros H. apply digit_bounds in H. rewrite !eqc_neq. chr_norm. lia.
Qed.

Lemma digit_not_int_space (c : N) : is_digit c = true -> int_space c = false.
Proof.
  intros H. unfold int_space. rewrite (digit_not_space c H). reflexivity.
Qed.

Lemma forallb_rev {A : Type} (f : A -> bool) (l : list A) :
  forallb f (rev l) = forallb f l.
Proof.
  induction l as [|x r IH]; simpl; [reflexivity|].
  rewrite forallb_app, IH. simpl. rewrite andb_true_r. apply andb_comm.
Qed.

Lemma int_strip_digits (ds : str) :
  forallb is_digit ds = true -> int_strip ds = ds.
Proof.
  intros H. unfold int_strip.
  assert (L : forall l, forallb is_digit l = true -> int_lstrip l = l).
  { intros [|c r]; simpl; [reflexivity|]. rewrite andb_true_iff. intros [Hc _].
    rewrite (digit_not_int_space _ Hc). reflexivity. }
  rewrite (L ds H), L, rev_involutive; [reflexivity|].
  rewrite forallb_rev. exact H.
Qed.

Lemma filter_all {A : Type} (f : A -> bool) (l : list A) :
  forallb f l = true -> filter f l = l.
Proof.
  induction l as [|x r IH]; simpl; [reflexivity|].
  rewrite andb_true_iff. intros [-> H]. rewrite IH by exact H. reflexivity.
Qed.

Lemma int_digits_all (ds : str) (acc : Z) (after_digit : bool) :
  forallb is_digit ds = true -> ds <> [] -> 0 <= acc ->
  exists n, int_digits acc after_digit ds = Some n /\ 0 <= n.
Proof.
  revert acc after_digit; induction ds as [|c r IH]; intros acc b H Hne Hacc;
    [contradiction|].
  simpl in H. apply andb_true_iff in H. destruct H as [Hc Hr].
  cbn [int_digits]. rewrite Hc. pose proof (digit_val_range c Hc) as Hv.
  destruct r as [|c' r'].
  - cbn [int_digits]. eexists. split; [reflexivity | lia].
  - apply IH; [exact Hr | discriminate | lia].
Qed.

(** [int] on a non-empty string of digits: the number, unless the digits
    are more than the limit. *)
Lemma python_int_digits (ds : str) :
  forallb is_digit ds = true -> ds <> [] ->
  if (List.length ds <=? int_max_str_digits)%nat
  then exists n, python_int ds = Some n /\ 0 <= n
  else python_int ds = None.
Proof.
  intros H Hne. unfold python_int. rewrite (int_strip_digits ds H).
  destruct ds as [|c r]; [contradiction|].
  pose proof H as H'. simpl in H'. apply andb_true_iff in H'.
  destruct H' as [Hc _]. destruct (digit_not_sign c Hc) as [-> ->].
  unfold int_body, within_digit_limit. rewrite (filter_all _ _ H).
  destruct (List.length (c :: r) <=? int_max_str_digits)%nat; [|reflexivity].
  apply int_digits_all; [exact H | discriminate | lia].
Qed.

Lemma match_mention_digits (s ds rest : str) :
  match_mention s = Some (ds, rest) ->
  ds <> [] /\ forallb is_digit ds = true.
Proof.
  unfold match_mention. destruct s as [|a [|b r]]; try discriminate.
  destruct (eqc a "<" && eqc b "@"); [|discriminate].
  set (r' := match r with
             | [] => r
             | c :: r2 => if eqc c "!" then r2 else r
             end).
  destruct (span is_digit r') as [ds' r3] eqn:Sp.
  destruct (span_app _ _ _ _ Sp) as [_ Hd].
  destruct ds' as [|d0 ds']; [discriminate|].
  destruct r3 as [|c r4]; [discriminate|].
  destruct (eqc c ">"); [|discriminate].
  intros E. injection E as <- <-. split; [discriminate | exact Hd].
Qed.

(** Every user id the mention pattern returns is a non-empty string of
    decimal digits.  When it has at most 4300 digits [int] reads it as a
    non-negative number, the lookup of the name is attempted and the name
    is the fetched one or one of the two placeholders built from the id;
    when it has more, [int] raises and the name is the "(Error)"
    placeholder, without a lookup. *)
Theorem mentions_are_user_ids (fetch_user : Z -> fetch_outcome) (segment : str) :
  Forall (fun user_id =>
            user_id <> [] /\ forallb is_digit user_id = true /\
            if (List.length user_id <=? 4300)%nat
            then exists n, python_int user_id = Some n /\ 0 <= n /\
                   resolve_username fetch_user user_id
                   = match fetch_user n with
                     | Fetched name => name
                     | NotFound => lit "User " ++ user_id ++ lit " (Not Found)"
                     | Failed => lit "User " ++ user_id ++ lit " (Error)"
                     end
            else python_int user_id = None /\
                 resolve_username fetch_user user_id
                 = lit "User " ++ user_id ++ lit " (Error)")
         (find_mentions segment).
Proof.
  apply scan_Forall. intros s ds rest E.
  destruct (match_mention_digits _ _ _ E) as [Hne Hd].
  pose proof (python_int_digits ds Hd Hne) as Hp.
  change int_max_str_digits with 4300%nat in Hp.
  split; [exact Hne|]. split; [exact Hd|].
  destruct (List.length ds <=? 4300)%nat.
  - destruct Hp as (n & Hn & Hpos). exists n. repeat split; try assumption.
    unfold resolve_username. rewrite Hn. reflexivity.
  - split; [exact Hp|]. unfold resolve_username. rewrite Hp. reflexivity.
Qed.

Example long_id_is_not_looked_up :
  let user_id := repeat 49%N 4301 in
  find_mentions (lit "<@" ++ user_id ++ lit ">") = [user_id] /\
  resolve_username (fun _ => Fetched (lit "ann")) user_id
  = lit "User " ++ user_id ++ lit " (Error)".
Proof. vm_compute. split; reflexivity. Qed.

(** ** What one ingestion changes *)

Section IngestionEffects.

Variable fetch_user : Z -> fetch_outcome.

Lemma fold_log_mention_count (points : Z) (ids : list str) (d : leaderboard) (n : Z) :
  snd (fold_left (log_mention fetch_user points) ids (d, n))
  = n + Z.of_nat (List.length ids).
Proof.
  revert d n; induction ids as [|id r IH]; intros d n; cbn [fold_left List.length].
  - simpl. lia.
  - rewrite log_mention_data, IH. lia.
Qed.

Lemma fold_log_match_count (mts : list (str * str * str)) (d : leaderboard) (n : Z) :
  snd (fold_left (log_match fetch_user) mts (d, n))
  = n + Z.of_nat (total_mentions mts).
Proof.
  revert d n; induction mts as [|[[g1 g2] g3] r IH]; intros d n;
    cbn [fold_left total_mentions].
  - simpl. lia.
  - unfold log_match at 2.
    pose proof (fold_log_mention_count (calculate_score (upper g1))
                  (find_mentions g2) d n) as H.
    destruct (fold_left (log_mention fetch_user (calculate_score (upper g1)))
                (find_mentions g2) (d, n)) as [d' n'].
    cbn [snd] in H. subst n'. rewrite IH. lia.
Qed.

Lemma fold_log_match_idle (mts : list (str * str * str)) (d : leaderboard) (n : Z) :
  total_mentions mts = O ->
  fst (fold_left (log_match fetch_user) mts (d, n)) = d.
Proof.
  revert d n; induction mts as [|[[g1 g2] g3] r IH]; intros d n;
    cbn [fold_left total_mentions]; [reflexivity|].
  intros H. unfold log_match at 2.
  destruct (find_mentions g2) as [|id ids]; [|simpl in H; lia].
  cbn [fold_left]. apply IH. simpl in H. exact H.
Qed.

Lemma process_as_fold (msg : message) (d : leaderboard) :
  process_wordle_message fetch_user msg d
  = (0 <? Z.of_nat (total_mentions (message_matches msg)),
     fst (fold_left (log_match fetch_user) (message_matches msg) (d, 0))).
Proof.
  unfold process_wordle_message, message_matches.
  destruct (author_id msg =? WORDLE_BOT_ID); simpl; [|reflexivity].
  destruct (content msg) as [|c0 body0]; [reflexivity|].
  destruct (findall (normalize (c0 :: body0))) as [|mt mts]; [reflexivity|].
  pose proof (fold_log_match_count (mt :: mts) d 0) as H.
  destruct (fold_left (log_match fetch_user) (mt :: mts) (d, 0)) as [d' n'].
  cbn [snd fst] in *. subst n'. reflexivity.
Qed.

End IngestionEffects.

(** The call returns [True] exactly when some segment of the message holds
    a mention; when it returns [False] the leaderboard it was given is
    unchanged, so a caller that saves only on [True] loses nothing. *)
Theorem process_logs_iff_mentions (fetch_user : Z -> fetch_outcome)
    (msg : message) (d : leaderboard) :
  (total_mentions (message_matches msg) = O /\
   process_wordle_message fetch_user msg d = (false, d)) \/
  ((0 < total_mentions (message_matches msg))%nat /\
   fst (process_wordle_message fetch_user msg d) = true).
Proof.
  rewrite process_as_fold.
  destruct (total_mentions (message_matches msg)) as [|k] eqn:E.
  - left. split; [reflexivity|].
    rewrite fold_log_match_idle by exact E. reflexivity.
  - right. split; [lia|]. cbn [fst]. apply Z.ltb_lt. lia.
Qed.

Lemma count_key_nonneg (k : str) (ids : list str) : 0 <= count_key k ids.
Proof.
  induction ids as [|id r IH]; simpl; [lia|]. destruct (str_eqb k id); lia.
Qed.

Lemma gained_games_nonneg (k : str) (mts : list (str * str * str)) :
  0 <= gained_games k mts.
Proof.
  induction mts as [|[[g1 g2] g3] r IH]; simpl; [lia|].
  pose proof (count_key_nonneg k (find_mentions g2)). lia.
Qed.

Lemma gained_score_bounds (k : str) (mts : list (str * str * str)) :
  Forall (fun mt => exists c, fst (fst mt) = [c]) mts ->
  0 <= gained_score k mts <= 7 * gained_games k mts.
Proof.
  induction 1 as [|[[g1 g2] g3] r [c Hc] Hr IH]; cbn [gained_score gained_games];
    [lia|].
  simpl in Hc. subst g1.
  pose proof (single_char_score c). pose proof (count_key_nonneg k (find_mentions g2)).
  nia.
Qed.

Lemma message_matches_single_char (msg : message) :
  Forall (fun mt => exists c, fst (fst mt) = [c]) (message_matches msg).
Proof.
  unfold message_matches.
  destruct (author_id msg =? WORDLE_BOT_ID); [|constructor].
  destruct (content msg); [constructor | apply findall_single_char].
Qed.

(** One ingestion never lowers the games or the score of a player, and it
    raises the score by at most 7 points for each game it adds. *)
Theorem ingestion_increments (fetch_user : Z -> fetch_outcome) (msg : message)
    (d : leaderboard) (k : str) :
  let d' := snd (process_wordle_message fetch_user msg d) in
  0 <= games_of d' k - games_of d k /\
  0 <= score_of d' k - score_of d k <= 7 * (games_of d' k - games_of d k).
Proof.
  intros d'. subst d'.
  destruct (process_totals fetch_user msg d k) as [G S]. rewrite G, S.
  pose proof (gained_games_nonneg k (message_matches msg)).
  pose proof (gained_score_bounds k _ (message_matches_single_char msg)).
  lia.
Qed.

(** The games and the scores after two messages do not depend on the
    order in which the two are ingested. *)
Theorem ingestion_order_irrelevant (fetch1 fetch2 : Z -> fetch_outcome)
    (m1 m2 : message) (d : leaderboard) (k : str) :
  let ab := snd (process_wordle_message fetch2 m2
                   (snd (process_wordle_message fetch1 m1 d))) in
  let ba := snd (process_wordle_message fetch1 m1
                   (snd (process_wordle_message fetch2 m2 d))) in
  games_of ab k = games_of ba k /\ score_of ab k = score_of ba k.
Proof.
  intros ab ba. subst ab ba.
  destruct (process_totals fetch2 m2 (snd (process_wordle_message fetch1 m1 d)) k)
    as [G1 S1].
  destruct (process_totals fetch1 m1 d k) as [G2 S2].
  destruct (process_totals fetch1 m1 (snd (process_wordle_message fetch2 m2 d)) k)
    as [G3 S3].
  destruct (process_totals fetch2 m2 d k) as [G4 S4].
  rewrite G1, S1, G2, S2, G3, S3, G4, S4. split; lia.
Qed.

Section RecordsOfOthers.

Variable fetch_user : Z -> fetch_outcome.

Lemma log_mention_lookup_other (points : Z) (d : leaderboard) (n : Z)
    (user_id k : str) :
  k <> user_id ->
  lookup k (fst (log_mention fetch_user points (d, n) user_id)) = lookup k d.
Proof.
  intros Hk. rewrite log_mention_data. cbn [fst].
  rewrite lookup_adjust, (proj2 (str_eqb_neq _ _) Hk).
  destruct (lookup user_id d); [reflexivity|].
  rewrite lookup_store, (proj2 (str_eqb_neq _ _) Hk). reflexivity.
Qed.

Lemma log_mention_lookup_same (points : Z) (d : leaderboard) (n : Z) (user_id : str) :
  exists p,
    lookup user_id (fst (log_mention fetch_user points (d, n) user_id)) = Some p /\
    username p = resolve_username fetch_user user_id.
Proof.
  rewrite log_mention_data. cbn [fst]. rewrite lookup_adjust, str_eqb_refl.
  destruct (lookup user_id d) as [p0|] eqn:L.
  - rewrite L. eexists. split; reflexivity.
  - rewrite lookup_store, str_eqb_refl. eexists. split; reflexivity.
Qed.

Lemma fold_log_mention_other (points : Z) (ids : list str) (d : leaderboard)
    (n : Z) (k : str) :
  count_key k ids = 0 ->
  lookup k (fst (fold_left (log_mention fetch_user points) ids (d, n))) = lookup k d.
Proof.
  revert d n; induction ids as [|id r IH]; intros d n; cbn [fold_left count_key];
    [reflexivity|].
  intros H. pose proof (count_key_nonneg k r) as Hr.
  split_key k id; [lia|].
  pose proof (log_mention_lookup_other points d n id k E) as Hl.
  destruct (log_mention fetch_user points (d, n) id) as [d' n'].
  cbn [fst] in Hl. rewrite IH by lia. exact Hl.
Qed.

Lemma fold_log_match_other (mts : list (str * str * str)) (d : leaderboard)
    (n : Z) (k : str) :
  gained_games k mts = 0 ->
  lookup k (fst (fold_left (log_match fetch_user) mts (d, n))) = lookup k d.
Proof.
  revert d n; induction mts as [|[[g1 g2] g3] r IH]; intros d n;
    cbn [fold_left gained_games]; [reflexivity|].
  intros H. pose proof (gained_games_nonneg k r) as Hr.
  pose proof (count_key_nonneg k (find_mentions g2)) as Hc.
  unfold log_match at 2.
  pose proof (fold_log_mention_other (calculate_score (upper g1))
                (find_mentions g2) d n k ltac:(lia)) as Hl.
  destruct (fold_left (log_mention fetch_user (calculate_score (upper g1)))
              (find_mentions g2) (d, n)) as [d' n'].
  cbn [fst] in Hl. rewrite IH by lia. exact Hl.
Qed.

Lemma log_mention_named (points : Z) (d : leaderboard) (n : Z) (user_id k : str) :
  named fetch_user k d \/ k = user_id ->
  named fetch_user k (fst (log_mention fetch_user points (d, n) user_id)).
Proof.
  intros H. unfold named. split_key k user_id.
  - subst k. apply log_mention_lookup_same.
  - destruct H as [H | H]; [|contradiction].
    rewrite log_mention_lookup_other by exact E. exact H.
Qed.

Lemma fold_log_mention_named (points : Z) (ids : list str) (d : leaderboard)
    (n : Z) (k : str) :
  named fetch_user k d \/ 0 < count_key k ids ->
  named fetch_user k (fst (fold_left (log_mention fetch_user points) ids (d, n))).
Proof.
  revert d n; induction ids as [|id r IH]; intros d n; cbn [fold_left count_key].
  - intros [H | H]; [exact H | lia].
  - intros H.
    assert (Hstep : named fetch_user k (fst (log_mention fetch_user points (d, n) id))
                    \/ 0 < count_key k r).
    { split_key k id.
      - left. apply log_mention_named. right. exact E.
      - destruct H as [H | H]; [|right; lia].
        left. apply log_mention_named. left. exact H. }
    destruct (log_mention fetch_user points (d, n) id) as [d' n'].
    apply IH. exact Hstep.
Qed.

Lemma fold_log_match_named (mts : list (str * str * str)) (d : leaderboard)
    (n : Z) (k : str) :
  named fetch_user k d \/ 0 < gained_games k mts ->
  named fetch_user k (fst (fold_left (log_match fetch_user) mts (d, n))).
Proof.
  revert d n; induction mts as [|[[g1 g2] g3] r IH]; intros d n;
    cbn [fold_left gained_games].
  - intros [H | H]; [exact H | lia].
  - intros H. unfold log_match at 2.
    assert (Hstep :
      named fetch_user k (fst (fold_left (log_mention fetch_user (calculate_score (upper g1)))
                      (find_mentions g2) (d, n)))
      \/ 0 < gained_games k r).
    { pose proof (count_key_nonneg k (find_mentions g2)) as Hc.
      destruct (Z.eq_dec (count_key k (find_mentions g2)) 0) as [Z0 | Z0].
      - destruct H as [H | H]; [|right; lia].
        left. apply fold_log_mention_named. left. exact H.
      - left. apply fold_log_mention_named. right. lia. }
    destruct (fold_left (log_mention fetch_user (calculate_score (upper g1)))
                (find_mentions g2) (d, n)) as [d' n'].
    apply IH. exact Hstep.
Qed.

End RecordsOfOthers.

(** A user that the message does not mention keeps the record it had, name
    included, and a user without a record gets none. *)
Theorem unmentioned_untouched (fetch_user : Z -> fetch_outcome) (msg : message)
    (d : leaderboard) (k : str) :
  gained_games k (message_matches msg) = 0 ->
  lookup k (snd (process_wordle_message fetch_user msg d)) = lookup k d.
Proof.
  intros H. rewrite process_as_fold. cbn [snd].
  apply fold_log_match_other, H.
Qed.

Lemma unmentioned_untouched_witness :
  lookup (lit "111")
    (snd (process_wordle_message Sample.names Sample.day_two Sample.tie_board))
  = lookup (lit "111") Sample.tie_board.
Proof.
  apply (unmentioned_untouched Sample.names Sample.day_two Sample.tie_board
           (lit "111")).
  reflexivity.
Defined.

(** A user that the message mentions has a record afterwards, and its
    username is the name resolved for the id, whatever it was before. *)
Theorem mentioned_is_renamed (fetch_user : Z -> fetch_outcome) (msg : message)
    (d : leaderboard) (k : str) :
  0 < gained_games k (message_matches msg) ->
  exists p,
    lookup k (snd (process_wordle_message fetch_user msg d)) = Some p /\
    username p = resolve_username fetch_user k.
Proof.
  intros H. rewrite process_as_fold. cbn [snd].
  apply fold_log_match_named. right. exact H.
Qed.

Lemma mentioned_is_renamed_witness :
  exists p,
    lookup (lit "222")
      (snd (process_wordle_message (fun _ => NotFound) Sample.day_two
              Sample.tie_board)) = Some p /\
    username p = resolve_username (fun _ => NotFound) (lit "222").
Proof.
  apply (mentioned_is_renamed (fun _ => NotFound) Sample.day_two
           Sample.tie_board (lit "222")).
  reflexivity.
Defined.

(** ** The keys of the dictionary *)

Lemma keys_adjust (k : str) (f : player -> player) (d : leaderboard) :
  keys (adjust k f d) = keys d.
Proof.
  unfold keys. induction d as [|[k0 v0] r IH]; simpl; [reflexivity|].
  destruct (str_eqb k k0); simpl; [reflexivity | rewrite IH; reflexivity].
Qed.

Lemma lookup_None_iff (k : str) (d : leaderboard) :
  lookup k d = None <-> ~ In k (keys d).
Proof.
  unfold keys. induction d as [|[k0 v0] r IH]; simpl; [tauto|].
  split_key k k0.
  - subst k0. split; [discriminate | intros H; contradiction H; left; reflexivity].
  - rewrite IH. split.
    + intros H [H' | H']; [symmetry in H'; contradiction | contradiction].
    + intros H H'. apply H. right. exact H'.
Qed.

Lemma log_mention_keys (fetch_user : Z -> fetch_outcome) (points : Z)
    (d : leaderboard) (n : Z) (user_id : str) :
  keys (fst (log_mention fetch_user points (d, n) user_id))
  = keys d ++ match lookup user_id d with
              | Some _ => []
              | None => [user_id]
              end.
Proof.
  rewrite log_mention_data. cbn [fst]. rewrite keys_adjust.
  destruct (lookup user_id d) eqn:L; [rewrite app_nil_r; reflexivity|].
  rewrite (store_fresh _ _ _ L). unfold keys. rewrite map_app. reflexivity.
Qed.

(** The keys [d'] has after [d]: those of [d] in their order, then new
    ones, each once. *)
Lemma extends_step (fetch_user : Z -> fetch_outcome) (d : leaderboard)
    (points : Z) (d0 : leaderboard) (n : Z) (user_id : str) :
  (exists extra, keys d0 = keys d ++ extra /\ NoDup extra /\
                 Forall (fun k => lookup k d = None) extra) ->
  exists extra,
    keys (fst (log_mention fetch_user points (d0, n) user_id)) = keys d ++ extra /\
    NoDup extra /\ Forall (fun k => lookup k d = None) extra.
Proof.
  intros (extra & Hk & Hnd & Hnew). rewrite log_mention_keys.
  destruct (lookup user_id d0) eqn:L.
  - exists extra. rewrite app_nil_r. repeat split; assumption.
  - apply lookup_None_iff in L. rewrite Hk in L.
    exists (extra ++ [user_id]). repeat split.
    + rewrite Hk, app_assoc. reflexivity.
    + apply NoDup_app; [exact Hnd | repeat constructor; intros [] |].
      intros a Ha [<- | []]. apply L, in_or_app. right. exact Ha.
    + apply Forall_app. split; [exact Hnew|]. constructor; [|constructor].
      apply lookup_None_iff. intros H. apply L, in_or_app. left. exact H.
Qed.

(** Ingestion keeps the keys the leaderboard has, in the order they have,
    and puts the users it meets for the first time after them, each once:
    no key is dropped, moved or doubled. *)
Theorem ingestion_appends_keys (fetch_user : Z -> fetch_outcome) (msg : message)
    (d : leaderboard) :
  exists extra,
    keys (snd (process_wordle_message fetch_user msg d)) = keys d ++ extra /\
    NoDup extra /\ Forall (fun k => lookup k d = None) extra.
Proof.
  apply (process_keeps fetch_user
           (fun d' => exists extra, keys d' = keys d ++ extra /\ NoDup extra /\
                                    Forall (fun k => lookup k d = None) extra)).
  - intros points d0 n user_id _. apply extends_step.
  - exists []. rewrite app_nil_r. repeat split; constructor.
Qed.

Lemma NoDup_keys_step (fetch_user : Z -> fetch_outcome) (points : Z)
    (d : leaderboard) (n : Z) (user_id : str) :
  NoDup (keys d) ->
  NoDup (keys (fst (log_mention fetch_user points (d, n) user_id))).
Proof.
  intros H. rewrite log_mention_keys.
  destruct (lookup user_id d) eqn:L; [rewrite app_nil_r; exact H|].
  apply lookup_None_iff in L.
  apply NoDup_app; [exact H | repeat constructor; intros [] |].
  intros a Ha [<- | []]. contradiction.
Qed.

(** A leaderboard built by ingestion has every user id once. *)
Theorem reachable_keys_unique (d : leaderboard) : reachable d -> NoDup (keys d).
Proof.
  induction 1 as [|f msg d _ IH]; [constructor|].
  apply (process_keeps f (fun d' => NoDup (keys d'))); [|exact IH].
  intros points d0 n user_id _. apply NoDup_keys_step.
Qed.

Lemma reachable_keys_unique_witness : NoDup (keys Sample.tie_board).
Proof.
  apply (reachable_keys_unique Sample.tie_board).
  unfold Sample.tie_board. apply reach_ingest, reach_ingest, reach_empty.
Defined.

(** ** The lookahead group *)

Lemma match_score_token (s : str) (m : re_match) (rest : str) (c : N) (r : str) :
  token_at s = Some (c, r) -> match_score s = Some (m, rest) -> m_token m = c.
Proof.
  unfold match_score. intros ->.
  destruct (span is_space r) as [ws r1].
  destruct (lazy_segment r1) as [[seg ahead] rest'].
  intros E. injection E as <- _. reflexivity.
Qed.

Lemma finditer_linked_aux (n : nat) (s : str) :
  (List.length s < n)%nat -> linked (finditer s).
Proof.
  revert s; induction n as [|n IH]; intros s Hn; [lia|].
  rewrite finditer_unfold.
  destruct (match_score s) as [[m rest]|] eqn:E.
  - pose proof (match_score_shrinks _ _ _ E) as Hlt.
    destruct (match_score_spec _ _ _ E) as (_ & _ & _ & _ & Hla & _).
    cbn [linked]. split; [|apply IH; lia].
    rewrite finditer_unfold. unfold lookahead in Hla.
    destruct (token_at rest) as [[c r]|] eqn:T.
    + destruct (match_score rest) as [[m' rest']|] eqn:E'.
      * rewrite (match_score_token _ _ _ _ _ T E'). congruence.
      * apply match_score_None in E'. congruence.
    + rewrite (proj2 (match_score_None rest) T).
      destruct rest as [|c [|c' r]]; simpl in Hla; try discriminate.
      * congruence.
      * destruct (eqc c "010"); [|discriminate].
        rewrite finditer_unfold.
        replace (match_score [c]) with (@None (re_match * str)) by reflexivity.
        change (finditer []) with (@nil re_match). congruence.
  - destruct s as [|c r]; [exact I|]. apply IH. simpl in Hn. lia.
Qed.

(** Group 3 of every match is the score character of the match that
    follows, and the empty string for the last match. *)
Theorem lookahead_is_next_token (body : str) : linked (finditer body).
Proof. apply (finditer_linked_aux (S (List.length body))). lia. Qed.

(** ** Normalization *)

Lemma score_char_not_star (c : N) :
  is_score_char c = true -> eqc c "*" = false.
Proof.
  intros H. apply score_char_bounds in H. rewrite eqc_neq. chr_norm. lia.
Qed.

Lemma space_not_pattern (c : N) :
  is_space c = true ->
  eqc c "/" = false /\ eqc c "6" = false /\ eqc c ":" = false.
Proof.
  intros H. apply is_space_iff in H. rewrite !eqc_neq. chr_norm. lia.
Qed.

Lemma remove_bold_cons2 (a b : N) (r : str) :
  remove_bold (a :: b :: r)
  = if eqc a "*" && eqc b "*" then remove_bold r
    else a :: remove_bold (b :: r).
Proof. reflexivity. Qed.

Lemma remove_bold_keeps (a : N) (t : str) :
  eqc a "*" = false -> remove_bold (a :: t) = a :: remove_bold t.
Proof.
  intros H. destruct t as [|b r]; [reflexivity|].
  rewrite remove_bold_cons2, H. reflexivity.
Qed.

Lemma token_at_remove_bold (s : str) (c : N) (r : str) :
  token_at s = Some (c, r) ->
  remove_bold s = c :: lit "/6:" ++ remove_bold r.
Proof.
  intros T. destruct (token_at_Some _ _ _ T) as [-> Hc].
  change (c :: lit "/6:" ++ r) with (c :: chr "/" :: chr "6" :: chr ":" :: r).
  rewrite (remove_bold_keeps c) by (apply score_char_not_star, Hc).
  rewrite !remove_bold_keeps by reflexivity. reflexivity.
Qed.

Lemma count_tokens_remove_bold_aux (n : nat) (s : str) :
  (List.length s < n)%nat ->
  (count_tokens s <= count_tokens (remove_bold s))%nat.
Proof.
  revert s; induction n as [|n IH]; intros s Hn; [lia|].
  destruct s as [|a [|b r]]; [simpl; lia | simpl; lia |].
  destruct (token_at (a :: b :: r)) as [[c r0]|] eqn:T.
  - pose proof (token_at_remove_bold _ _ _ T) as Hrb.
    destruct (token_at_Some _ _ _ T) as [Hs Hc].
    rewrite Hrb, Hs. rewrite !count_tokens_after_token by exact Hc.
    apply le_n_S, IH.
    apply (f_equal (@List.length N)) in Hs. simpl in Hs, Hn. lia.
  - rewrite (count_tokens_cons_None _ _ T). rewrite remove_bold_cons2.
    destruct (eqc a "*" && eqc b "*") eqn:St.
    + apply andb_true_iff in St. destruct St as [_ Sb].
      apply eqc_eq in Sb. subst b.
      rewrite count_tokens_cons_None
        by (apply token_at_not_score_char; reflexivity).
      apply IH. simpl in Hn. lia.
    + etransitivity; [apply IH; simpl in Hn; simpl; lia|].
      cbn [count_tokens]. lia.
Qed.

Lemma lstrip_split (s : str) :
  exists ws, s = ws ++ lstrip s /\ forallb is_space ws = true.
Proof.
  induction s as [|c r (ws & Hr & Hws)]; simpl.
  - exists []. split; reflexivity.
  - destruct (is_space c) eqn:Hc.
    + exists (c :: ws). simpl. rewrite Hc, Hws, <- Hr. split; reflexivity.
    + exists []. split; reflexivity.
Qed.

Lemma rstrip_split (s : str) :
  exists ws, s = rstrip s ++ ws /\ forallb is_space ws = true.
Proof.
  unfold rstrip. destruct (lstrip_split (rev s)) as (ws & H & Hws).
  exists (rev ws). split.
  - rewrite <- rev_app_distr, <- H, rev_involutive. reflexivity.
  - rewrite forallb_rev. exact Hws.
Qed.

Lemma token_at_before_spaces (a ws : str) :
  forallb is_space ws = true -> token_at a = None -> token_at (a ++ ws) = None.
Proof.
  intros Hws Ha.
  assert (Hhd : forall w r, ws = w :: r ->
            eqc w "/" = false /\ eqc w "6" = false
            /\ eqc w ":" = false).
  { intros w r ->. simpl in Hws. apply andb_true_iff in Hws.
    apply space_not_pattern, Hws. }
  assert (Htl : forall w r, ws = w :: r -> forallb is_space r = true).
  { intros w r ->. simpl in Hws. apply andb_true_iff in Hws. apply Hws. }
  destruct a as [|c [|x [|y [|z a']]]]; simpl app.
  - destruct ws as [|w r]; [reflexivity|].
    apply token_at_not_score_char, space_not_score_char.
    simpl in Hws. apply andb_true_iff in Hws. apply Hws.
  - destruct ws as [|w1 [|w2 [|w3 r]]]; try reflexivity.
    destruct (Hhd _ _ eq_refl) as (H1 & _). simpl. rewrite H1.
    rewrite andb_false_r. reflexivity.
  - destruct ws as [|w1 [|w2 r]]; try reflexivity.
    destruct (Hhd _ _ eq_refl) as (_ & H1 & _). simpl. rewrite H1.
    rewrite andb_false_r. reflexivity.
  - destruct ws as [|w1 r]; try reflexivity.
    destruct (Hhd _ _ eq_refl) as (_ & _ & H1). simpl. rewrite H1.
    rewrite andb_false_r. reflexivity.
  - simpl in Ha |- *.
    destruct (is_score_char c && eqc x "/" && eqc y "6"
              && eqc z ":"); [discriminate Ha | reflexivity].
Qed.

Lemma count_tokens_before_spaces (a ws : str) :
  forallb is_space ws = true -> count_tokens (a ++ ws) = count_tokens a.
Proof.
  intros Hws. induction a as [|c a IH].
  - simpl. rewrite <- (app_nil_r ws). apply count_tokens_spaces, Hws.
  - change ((c :: a) ++ ws) with (c :: (a ++ ws)). cbn [count_tokens].
    rewrite IH. f_equal.
    destruct (token_at (c :: a)) as [[c0 r0]|] eqn:T.
    + change (c :: a ++ ws) with ((c :: a) ++ ws).
      rewrite (token_at_app _ ws _ _ T). reflexivity.
    + change (c :: a ++ ws) with ((c :: a) ++ ws).
      rewrite (token_at_before_spaces _ _ Hws T). reflexivity.
Qed.

Lemma count_tokens_strip (s : str) : count_tokens (strip s) = count_tokens s.
Proof.
  unfold strip.
  destruct (rstrip_split (lstrip s)) as (ws & H & Hws).
  destruct (lstrip_split s) as (ws' & H' & Hws').
  rewrite H' at 2. rewrite count_tokens_spaces by exact Hws'.
  rewrite H at 2. rewrite count_tokens_before_spaces by exact Hws.
  reflexivity.
Qed.

(** Normalization never hides a score token: the cleaned text has at least
    as many occurrences of the token pattern as the raw content, and
    stripping alone leaves their number as it is. *)
Theorem normalize_keeps_tokens (body : str) :
  (count_tokens body <= count_tokens (normalize body))%nat /\
  count_tokens (strip body) = count_tokens body.
Proof.
  split; [|apply count_tokens_strip].
  unfold normalize. rewrite count_tokens_strip.
  apply (count_tokens_remove_bold_aux (S (List.length body))). lia.
Qed.

Lemma lstrip_head_not_space (s : str) (c : N) (r : str) :
  lstrip s = c :: r -> is_space c = false.
Proof.
  induction s as [|x s IH]; simpl; [discriminate|].
  destruct (is_space x) eqn:Hx; [exact IH|].
  intros E. injection E as <- _. exact Hx.
Qed.

Lemma strip_last_not_space (s a : str) (c : N) :
  strip s = a ++ [c] -> is_space c = false.
Proof.
  unfold strip, rstrip. intros H.
  apply (f_equal (@rev N)) in H.
  rewrite rev_involutive, rev_app_distr in H. simpl in H.
  eapply lstrip_head_not_space. exact H.
Qed.

(** In the cleaned text the matches reach the end: the text is an
    unmatched prefix without score token followed by the matches, and
    nothing is left after the last segment. *)
Theorem normalized_matches_reach_end (body : str) :
  exists pre,
    normalize body
    = pre ++ List.concat (map m_text (finditer (normalize body))) /\
    count_tokens pre = O.
Proof.
  destruct (finditer_layout_aux (S (List.length (normalize body))) (normalize body))
    as (pre & tail & H & Hpre & Ht); [lia|].
  exists pre. split; [|exact Hpre].
  destruct Ht as [-> | ->]; [rewrite app_nil_r in H; exact H|].
  exfalso. rewrite app_assoc in H. unfold normalize in H.
  apply strip_last_not_space in H. discriminate H.
Qed.

(** ** The order of the ranking *)

Lemma Qltb_lt (a b : Q) : Qltb a b = true <-> (a < b)%Q.
Proof.
  unfold Qltb. rewrite Qlt_alt. destruct (a ?= b)%Q; split; congruence.
Qed.

Lemma key_lt_below (a b : Z * Q) : key_lt a b = true <-> key_below a b.
Proof.
  unfold key_lt, key_below. destruct (fst a =? fst b) eqn:E.
  - apply Z.eqb_eq in E. rewrite Qltb_lt. split.
    + intros H. right. split; assumption.
    + intros [H | [_ H]]; [lia | exact H].
  - apply Z.eqb_neq in E. rewrite Z.ltb_lt. split.
    + intros H. left. exact H.
    + intros [H | [H _]]; [exact H | contradiction].
Qed.

Lemma key_lt_false (a b : Z * Q) : key_lt a b = false <-> ~ key_below a b.
Proof.
  rewrite <- key_lt_below. destruct (key_lt a b); split; congruence.
Qed.

Lemma not_below_trans (x y z : str * player) :
  not_below x y -> not_below y z -> not_below x z.
Proof.
  unfold not_below. rewrite !key_lt_false. unfold key_below.
  intros Hxy Hyz [H | [H1 H2]].
  - destruct (Z.lt_trichotomy (fst (sort_key x)) (fst (sort_key y)))
      as [L | [L | L]].
    + apply Hxy. left. exact L.
    + apply Hyz. left. lia.
    + apply Hyz. left. lia.
  - destruct (Z.lt_trichotomy (fst (sort_key x)) (fst (sort_key y)))
      as [L | [L | L]].
    + apply Hxy. left. exact L.
    + destruct (Qlt_le_dec (snd (sort_key x)) (snd (sort_key y))) as [Q1 | Q1].
      * apply Hxy. right. split; assumption.
      * apply Hyz. right. split; [lia|]. lra.
    + apply Hyz. left. lia.
Qed.

Lemma not_below_ranks (x y : str * player) : not_below x y -> ranks_before x y.
Proof.
  unfold not_below, ranks_before. rewrite key_lt_false.
  unfold key_below, sort_key. cbn [fst snd]. intros H.
  destruct (Z.lt_trichotomy (total_score (snd x)) (total_score (snd y)))
    as [L | [L | L]].
  - contradiction H. left. exact L.
  - right. split; [exact L|].
    destruct (Qlt_le_dec (average_guesses (snd x)) (average_guesses (snd y)))
      as [Q1 | Q1]; [|exact Q1].
    contradiction H. right. split; assumption.
  - left. exact L.
Qed.

Lemma StronglySorted_weaken {A : Type} (P R : A -> A -> Prop) (l : list A) :
  (forall x y, P x y -> R x y) -> StronglySorted P l -> StronglySorted R l.
Proof.
  intros H. induction 1 as [|x l Hl IH Hx]; constructor; [exact IH|].
  eapply Forall_impl; [|exact Hx]. intros y. apply H.
Qed.

(** Whenever the keys can be computed, every record of the ranking comes
    before the records with a lower total score, and, among records with
    the same total score, before those with a lower float key 7.0 minus
    the average of points (records whose float keys are equal may come in
    either order). *)
Theorem ranking_order (d : leaderboard) :
  existsb key_raises d = false ->
  StronglySorted ranks_before (sorted_board d).
Proof.
  intros _.
  apply (StronglySorted_weaken not_below); [apply not_below_ranks|].
  apply Sorted_StronglySorted; [|apply sorted_board_sorted].
  intros x y z. apply not_below_trans.
Qed.

Lemma ranking_order_witness :
  StronglySorted ranks_before (sorted_board Sample.tie_board).
Proof.
  pose proof (ranking_order Sample.tie_board) as H. apply H.
  vm_compute. reflexivity.
Defined.

(** Two records with one point each, after 10^17 and 10^17 + 1 games:
    their float keys are both 7.0, and the stored order is kept. *)
Example float_tie_keeps_order :
  let few := (lit "1", {| username := []; total_score := 1;
                          games_played := 10 ^ 17 |}) in
  let many := (lit "2", {| username := []; total_score := 1;
                           games_played := 10 ^ 17 + 1 |}) in
  sorted_board [few; many] = [few; many] /\
  sorted_board [many; few] = [many; few].
Proof. vm_compute. split; reflexivity. Qed.

Lemma same_key_not_lt (z x y : str * player) :
  same_key z x = true -> same_key z y = true ->
  key_lt (sort_key x) (sort_key y) = false.
Proof.
  unfold same_key. rewrite !andb_true_iff, !negb_true_iff, !key_lt_false.
  unfold key_below. intros [Hzx Hxz] [Hzy Hyz].
  assert (Ex : fst (sort_key z) = fst (sort_key x)).
  { destruct (Z.lt_trichotomy (fst (sort_key z)) (fst (sort_key x)))
      as [L | [L | L]]; [contradiction Hzx; left; exact L | exact L |
                         contradiction Hxz; left; exact L]. }
  assert (Ey : fst (sort_key z) = fst (sort_key y)).
  { destruct (Z.lt_trichotomy (fst (sort_key z)) (fst (sort_key y)))
      as [L | [L | L]]; [contradiction Hzy; left; exact L | exact L |
                         contradiction Hyz; left; exact L]. }
  intros [H | [_ H]]; [lia|].
  destruct (Qlt_le_dec (snd (sort_key x)) (snd (sort_key z))) as [Q1 | Q1];
    [apply Hxz; right; split; [lia | assumption]|].
  destruct (Qlt_le_dec (snd (sort_key z)) (snd (sort_key y))) as [Q2 | Q2];
    [apply Hzy; right; split; assumption|].
  lra.
Qed.

Lemma insert_desc_stable (z x : str * player) (l : leaderboard) :
  filter (same_key z) (insert_desc x l) = filter (same_key z) (x :: l).
Proof.
  induction l as [|y r IH]; [reflexivity|].
  cbn [insert_desc].
  destruct (key_lt (sort_key x) (sort_key y)) eqn:E; [|reflexivity].
  cbn [filter] in *. rewrite IH.
  destruct (same_key z x) eqn:Hx; [|reflexivity].
  destruct (same_key z y) eqn:Hy; [|reflexivity].
  rewrite (same_key_not_lt z x y Hx Hy) in E. discriminate E.
Qed.

(** The sort is stable: the records that the sort key does not tell apart
    from a given one come out in the order the leaderboard has them. *)
Theorem ranking_is_stable (z : str * player) (d : leaderboard) :
  filter (same_key z) (sorted_board d) = filter (same_key z) d.
Proof.
  induction d as [|x r IH]; [reflexivity|].
  cbn [sorted_board fold_right]. fold (sorted_board r).
  rewrite insert_desc_stable. cbn [filter]. rewrite IH. reflexivity.
Qed.

(** ** The lines of the ranking *)
















(** One point in 200 games: the line shows 7.00. *)
Example rounded_up_to_seven :
  avg_of 1 200 = Returned (Average false 700).
Proof. vm_compute. reflexivity. Qed.

(** ** More on backfill *)

Section BackfillFacts.

Variable fetch_user : Z -> fetch_outcome.

Lemma process_false_unchanged (msg : message) (d : leaderboard) :
  fst (process_wordle_message fetch_user msg d) = false ->
  snd (process_wordle_message fetch_user msg d) = d.
Proof.
  rewrite process_as_fold. cbn [fst snd]. intros H.
  apply fold_log_match_idle. apply Z.ltb_ge in H. lia.
Qed.

Lemma backfill_step_cases (command_id : Z) (d : leaderboard) (n : Z) (msg : message) :
  backfill_step fetch_user command_id (d, n) msg = (d, n) \/
  backfill_step fetch_user command_id (d, n) msg
  = (snd (process_wordle_message fetch_user msg d), n + 1).
Proof.
  unfold backfill_step.
  destruct (msg_id msg =? command_id); [left; reflexivity|].
  destruct (is_wordle_result msg); [|left; reflexivity].
  pose proof (process_false_unchanged msg d) as H.
  destruct (process_wordle_message fetch_user msg d) as [[|] d'];
    cbn [fst snd] in *; [right; reflexivity|].
  left. rewrite H; reflexivity.
Qed.

Lemma backfill_fold_count (command_id : Z) (msgs : list message)
    (d : leaderboard) (n : Z) :
  let st := fold_left (backfill_step fetch_user command_id) msgs (d, n) in
  n <= snd st <= n + Z.of_nat (List.length msgs) /\ (snd st = n -> fst st = d).
Proof.
  revert d n; induction msgs as [|m r IH]; intros d n; cbn [fold_left List.length].
  - simpl. split; [lia | reflexivity].
  - destruct (backfill_step_cases command_id d n m) as [-> | ->].
    + destruct (IH d n) as [H1 H2]. cbv zeta in *. split; [lia | exact H2].
    + destruct (IH (snd (process_wordle_message fetch_user m d)) (n + 1))
        as [H1 H2]. cbv zeta in *. split; lia.
Qed.

Lemma backfill_fold_shift (command_id : Z) (msgs : list message)
    (d : leaderboard) (n : Z) :
  fold_left (backfill_step fetch_user command_id) msgs (d, n)
  = (fst (fold_left (backfill_step fetch_user command_id) msgs (d, 0)),
     n + snd (fold_left (backfill_step fetch_user command_id) msgs (d, 0))).
Proof.
  revert d n; induction msgs as [|m r IH]; intros d n; cbn [fold_left].
  - simpl. f_equal. lia.
  - destruct (backfill_step_cases command_id d n m) as [E | E];
      destruct (backfill_step_cases command_id d 0 m) as [E0 | E0];
      rewrite E, E0.
    + apply IH.
    + exfalso. unfold backfill_step in E, E0.
      destruct (msg_id m =? command_id); [injection E0; lia|].
      destruct (is_wordle_result m); [|injection E0; lia].
      destruct (process_wordle_message fetch_user m d) as [[|] d'];
        [injection E; lia | injection E0; lia].
    + exfalso. unfold backfill_step in E, E0.
      destruct (msg_id m =? command_id); [injection E; lia|].
      destruct (is_wordle_result m); [|injection E; lia].
      destruct (process_wordle_message fetch_user m d) as [[|] d'];
        [injection E0; lia | injection E; lia].
    + rewrite IH. rewrite (IH _ (0 + 1)). cbn [fst snd]. f_equal. lia.
Qed.

Lemma backfill_fold_reachable (command_id : Z) (msgs : list message)
    (d : leaderboard) (n : Z) :
  reachable d ->
  reachable (fst (fold_left (backfill_step fetch_user command_id) msgs (d, n))).
Proof.
  revert d n; induction msgs as [|m r IH]; intros d n Hd; cbn [fold_left];
    [exact Hd|].
  destruct (backfill_step_cases command_id d n m) as [-> | ->].
  - apply IH, Hd.
  - apply IH. constructor. exact Hd.
Qed.

End BackfillFacts.

(** The scan counts at most one logged post for each message it reads, so
    at most [limit]; and when it has counted none, the leaderboard is the
    one that was loaded and nothing is saved, while otherwise exactly the
    final leaderboard is saved. *)
Theorem backfill_count_and_save (fetch_user : Z -> fetch_outcome)
    (loaded : leaderboard) (command_id : Z) (history : list message)
    (limit : nat) :
  let run := backfill_wordle_leaderboard fetch_user loaded command_id history limit in
  0 <= bf_logged run <= Z.of_nat (Nat.min limit (List.length history)) /\
  ((bf_logged run = 0 /\ bf_data run = loaded /\ bf_saves run = []) \/
   (0 < bf_logged run /\ bf_saves run = [bf_data run])).
Proof.
  intros run. subst run. unfold backfill_wordle_leaderboard.
  pose proof (backfill_fold_count fetch_user command_id (firstn limit history)
                loaded 0) as H.
  cbv zeta in H. rewrite length_firstn in H.
  destruct (fold_left (backfill_step fetch_user command_id)
              (firstn limit history) (loaded, 0)) as [d n].
  cbn [fst snd bf_data bf_logged bf_saves] in *.
  destruct H as [Hn Hd]. split; [lia|].
  destruct (Z.eq_dec n 0) as [-> | Hne].
  - left. rewrite Hd by reflexivity. repeat split.
  - right. split; [lia|]. rewrite (proj2 (Z.ltb_lt 0 n)) by lia. reflexivity.
Qed.

(** Scanning a history in one run gives the leaderboard and the count of
    scanning its first part and then, from the leaderboard reached, the
    rest. *)
Theorem backfill_in_two_parts (fetch_user : Z -> fetch_outcome)
    (loaded : leaderboard) (command_id : Z) (h1 h2 : list message) :
  let whole := backfill_wordle_leaderboard fetch_user loaded command_id
                 (h1 ++ h2) (List.length (h1 ++ h2)) in
  let first := backfill_wordle_leaderboard fetch_user loaded command_id
                 h1 (List.length h1) in
  let second := backfill_wordle_leaderboard fetch_user (bf_data first) command_id
                  h2 (List.length h2) in
  bf_data whole = bf_data second /\
  bf_logged whole = bf_logged first + bf_logged second.
Proof.
  intros whole first second. subst whole first second.
  unfold backfill_wordle_leaderboard. rewrite !firstn_all, fold_left_app.
  destruct (fold_left (backfill_step fetch_user command_id) h1 (loaded, 0))
    as [d1 n1] eqn:E1.
  cbn [bf_data]. rewrite (backfill_fold_shift fetch_user command_id h2 d1 n1).
  destruct (fold_left (backfill_step fetch_user command_id) h2 (d1, 0))
    as [d2 n2] eqn:E2.
  cbn [fst snd bf_data bf_logged]. split; reflexivity.
Qed.

(** A scan that starts from a leaderboard built by ingestion ends with one,
    so the bounds on the scores hold for what it saves. *)
Theorem backfill_keeps_reachable (fetch_user : Z -> fetch_outcome)
    (loaded : leaderboard) (command_id : Z) (history : list message)
    (limit : nat) :
  reachable loaded ->
  let run := backfill_wordle_leaderboard fetch_user loaded command_id history limit in
  reachable (bf_data run) /\ Forall well_scored (bf_saves run).
Proof.
  intros Hl run. subst run. unfold backfill_wordle_leaderboard.
  pose proof (backfill_fold_reachable fetch_user command_id
                (firstn limit history) loaded 0 Hl) as H.
  destruct (fold_left (backfill_step fetch_user command_id)
              (firstn limit history) (loaded, 0)) as [d n].
  cbn [fst bf_data bf_saves] in *. split; [exact H|].
  destruct (0 <? n); repeat constructor. apply reachable_well_scored, H.
Qed.

Lemma backfill_keeps_reachable_witness :
  let run := backfill_wordle_leaderboard Sample.names Sample.tie_board 99
               Sample.window 5000 in
  reachable (bf_data run) /\ Forall well_scored (bf_saves run).
Proof.
  apply (backfill_keeps_reachable Sample.names Sample.tie_board 99
           Sample.window 5000).
  unfold Sample.tie_board. apply reach_ingest, reach_ingest, reach_empty.
Defined.

(** ** Loading, once more *)


(** ** Live messages *)



(** For a message that is not from the Wordle bot the handler itself
    saves nothing and sends nothing: it does nothing at all, or only hands
    the message to the commands (what a command then does is its own
    affair). *)
Theorem on_message_ignores_others (fetch_user : Z -> fetch_outcome)
    (client_user : Z) (fs : storage) (msg : message) :
  author_id msg <> WORDLE_BOT_ID ->
  actions (on_message fetch_user client_user fs msg) = [] \/
  actions (on_message fetch_user client_user fs msg) = [Commands msg].
Proof.
  intros H. unfold on_message.
  destruct (author_id msg =? client_user); [left; reflexivity|].
  destruct (load_leaderboard fs) as [data | e]; [|left; reflexivity].
  rewrite (proj2 (Z.eqb_neq _ _) H). right. reflexivity.
Qed.

Lemma on_message_ignores_others_witness :
  let msg := {| msg_id := 1; author_id := 7; content := lit "1/6: <@!111>" |} in
  let fs := {| file_exists := true; read_json := Returned Sample.tie_board |} in
  actions (on_message Sample.names 5 fs msg) = [] \/
  actions (on_message Sample.names 5 fs msg) = [Commands msg].
Proof.
  pose proof (on_message_ignores_others Sample.names 5
           {| file_exists := true; read_json := Returned Sample.tie_board |}
           {| msg_id := 1; author_id := 7; content := lit "1/6: <@!111>" |}) as H.
  apply H. discriminate.
Defined.



(** The handler passes a message on to the commands exactly when the
    message is not the client's own and the leaderboard loads: an unreadable
    leaderboard file stops every command. *)
Theorem on_message_reaches_commands (fetch_user : Z -> fetch_outcome)
    (client_user : Z) (fs : storage) (msg : message) :
  In (Commands msg) (actions (on_message fetch_user client_user fs msg))
  <-> author_id msg <> client_user /\
      exists data, load_leaderboard fs = Returned data.
Proof.
  unfold on_message.
  destruct (author_id msg =? client_user) eqn:S.
  - apply Z.eqb_eq in S. simpl. split; [contradiction | intros [H _]; contradiction].
  - apply Z.eqb_neq in S.
    destruct (load_leaderboard fs) as [data | e]; cbn [actions].
    + split; [intros _; split; [exact S | exists data; reflexivity]|].
      intros _. apply in_or_app. right. left. reflexivity.
    + simpl. split; [contradiction | intros [_ [data H]]; discriminate H].
Qed.

(** ** Replay by id *)

(** The replay announces itself first; it saves at most once, and only a
    message it could fetch, written by the Wordle bot, ingested into the
    loaded leaderboard with a score logged; and when the leaderboard loads
    it sends exactly one more notice, whatever happens to the fetch. *)
Theorem log_by_id_outcomes (fetch_user : Z -> fetch_outcome) (fs : storage)
    (fetch_message : Z -> fetched) (message_id : Z) :
  let r := log_by_id fetch_user fs fetch_message message_id in
  (exists rest, actions r = Sent (Attempting message_id) :: rest) /\
  (saves (actions r) = [] \/
   exists msg data,
     fetch_message message_id = Got msg /\ author_id msg = WORDLE_BOT_ID /\
     load_leaderboard fs = Returned data /\
     process_wordle_message fetch_user msg data
     = (true, snd (process_wordle_message fetch_user msg data)) /\
     saves (actions r) = [snd (process_wordle_message fetch_user msg data)]) /\
  match failure r with
  | None => List.length (notices (actions r)) = 2%nat
  | Some e => load_leaderboard fs = Raised e /\ saves (actions r) = []
  end.
Proof.
  intros r. subst r. unfold log_by_id.
  destruct (load_leaderboard fs) as [data | e]; cbn [actions failure].
  - split; [eexists; reflexivity|].
    destruct (fetch_message message_id) as [msg | |];
      [|split; [left|]; reflexivity | split; [left|]; reflexivity].
    destruct (author_id msg =? WORDLE_BOT_ID) eqn:A; cbn [negb];
      [|split; [left|]; reflexivity].
    apply Z.eqb_eq in A.
    destruct (process_wordle_message fetch_user msg data) as [[|] data'] eqn:P;
      [|split; [left|]; reflexivity].
    split; [|reflexivity]. right. exists msg, data.
    rewrite P. cbn [snd]. repeat split; assumption.
  - split; [eexists; reflexivity|]. split; [left; reflexivity|].
    split; reflexivity.
Qed.
